(** * The AutoML orchestrator of [lightautoml/automl/base.py]

    A shallow embedding of class [AutoML]: [_initialize], [fit_predict],
    [predict] and [collect_used_feats].  The collaborators the class only
    calls (Reader, MLPipeline, PipelineTimer, Blender, the dataset
    utilities) are an interface; the orchestrator's own control flow is
    embedded statement by statement in a state-and-exception monad whose
    state also records the calls made on the collaborators. *)

From Stdlib Require Import Ascii.
From stdpp Require Import base list strings gmap pretty.

Open Scope string_scope.
Open Scope list_scope.

(** ** Python exceptions raised by the orchestrator *)

Inductive pyerr : Type :=
  | AssertionError (msg : string)
  | TypeError (msg : string)
  | AttributeError (msg : string)
  | OtherError (msg : string).

Definition is_TypeError (e : pyerr) : bool :=
  match e with TypeError _ => true | _ => false end.

(** The literals of the source. *)
Definition msg_no_levels : string := "At least 1 level should be defined".
Definition msg_no_folds : string :=
  "Not possible to fit more than 1 level without cv folds".
Definition msg_holdout : string :=
  "Not possible to fit more than 1 level with holdout validation".
Definition msg_skip_conn : string :=
  "Can not convert prediction dataset type to input features. Set skip_conn=False".
Definition msg_attr (name : string) : string :=
  "'AutoML' object has no attribute '" +:+ name +:+ "'".

(** ['Lvl_{0}_Pipe_{1}'.format(i, j)] *)
Definition model_name (i j : nat) : string :=
  "Lvl_" +:+ pretty i +:+ "_Pipe_" +:+ pretty j.

(** Does the character occur in the string? *)
Fixpoint has_char (c : ascii) (s : string) : bool :=
  match s with
  | EmptyString => false
  | String a s' => bool_decide (a = c) || has_char c s'
  end.

(** ** The collaborators' interface

    [World] is the state of every object the orchestrator does not own:
    the clock behind the timer, the fitted models inside the pipelines,
    the blender's weights.  Datasets and validation iterators are values.
    [folds] is the attribute [train_dataset.folds]; [from_dataset] may
    raise. *)

Class Collaborators (Dataset Pipe ValidIter RawData Roles CvIter World : Type) := {
  (* PipelineTimer *)
  timer_start : World → World;
  time_limit_exceeded : World → bool * World;
  child_out_of_time : World → bool;
  (* Reader: [fit_read] returns the dataset and the used features it sets *)
  reader_fit_read :
    RawData → option (list string) → Roles → World → Dataset * list string * World;
  reader_read : RawData → option (list string) → bool → World → Dataset * World;
  (* LAMLDataset and dataset utilities *)
  folds : Dataset → option (list nat);
  concatenate : list Dataset → Dataset;
  from_dataset : Dataset → Dataset → pyerr + Dataset;
  (* validation *)
  create_validation_iterator :
    Dataset → option Dataset → option nat → option CvIter → ValidIter;
  get_validation_data : ValidIter → Dataset;
  (* MLPipeline *)
  pipe_upd_model_names : Pipe → string → World → World;
  pipe_fit_predict : Pipe → ValidIter → World → Dataset * World;
  pipe_predict : Pipe → Dataset → World → Dataset * World;
  pipe_used_features : Pipe → World → list string;
}.

Section Orchestrator.

Context {Dataset Pipe ValidIter RawData Roles CvIter World : Type}.

(** The variable [level_predictions] holds [None], then a list of
    datasets, then (between levels) one concatenated dataset. *)
Inductive pyval : Type :=
  | PyNone
  | PyList (ds : list Dataset)
  | PyDataset (d : Dataset).

(** The Blender takes whatever [level_predictions] and [pipes] hold. *)
Class BlenderOps := {
  blender_fit_predict :
    pyval → option (list Pipe) → World → Dataset * list Pipe * World;
  blender_predict : pyval → World → Dataset * World;
}.

Context `{!Collaborators Dataset Pipe ValidIter RawData Roles CvIter World}.
Context `{!BlenderOps}.

(** Calls on the collaborators, in the order they are made. *)
Inductive event : Type :=
  | EvUpdModelNames (p : Pipe) (name : string)
  | EvTimerStart
  | EvFitRead (d : Dataset)
  | EvRead (add_array_attrs : bool) (d : Dataset)
  | EvCreateIter (train : Dataset) (valid : option Dataset)
      (cv_iter : option CvIter) (it : ValidIter)
  | EvPipeFit (p : Pipe) (it : ValidIter) (pred : Dataset)
  | EvTimeLimitExceeded (b : bool)
  | EvChildOutOfTime (b : bool)
  | EvFromDataset (target src : Dataset) (res : pyerr + Dataset)
  | EvBlenderFit (preds : pyval) (pipes : option (list Pipe))
      (blended : Dataset) (last_pipes : list Pipe)
  | EvUpdUsedFeatures (remove : list string)
  | EvPipePredict (p : Pipe) (d pred : Dataset)
  | EvBlenderPredict (preds : pyval) (blended : Dataset).

(** The attributes of an [AutoML] instance that the class itself
    assigns or deletes.  [_levels] and [levels] may be absent;
    [skip_conn] is assigned by [_initialize] before anything reads it.
    [self.timer], [self.reader] and [self.blender] point to
    collaborators, whose state is in [World]. *)
Record AutoML : Type := mkAutoML {
  _levels : option (list (list Pipe));
  levels : option (list (list Pipe));
  skip_conn : bool;
}.

(** The state a method runs in.  Modelled from the spec: the reader's
    [used_features] is not in the sources; it is a list of feature names
    that [fit_read] sets and that only [upd_used_features] changes
    afterwards ([read] updates no state). *)
Record St : Type := mkSt {
  self : AutoML;
  used_features : list string;        (* reader.used_features *)
  world : World;
  log : list event;
}.

(** ** State and exception monad *)

Definition M (A : Type) : Type := St → (pyerr + A) * St.

Definition ret {A} (a : A) : M A := λ st, (inr a, st).
Definition bind {A B} (m : M A) (f : A → M B) : M B := λ st,
  match m st with
  | (inl e, st') => (inl e, st')
  | (inr a, st') => f a st'
  end.

Declare Scope M_scope.
Delimit Scope M_scope with M.
Bind Scope M_scope with M.
Notation "x ← y ; z" := (bind y (λ x, z))
  (at level 20, y at level 100, z at level 200, only parsing) : M_scope.
Notation "' x ← y ; z" := (bind y (λ x, z))
  (at level 20, x pattern, y at level 100, z at level 200, only parsing) : M_scope.
Notation "x ;; z" := (bind x (λ _, z))
  (at level 100, z at level 200, only parsing, right associativity) : M_scope.
Open Scope M_scope.

Definition raise {A} (e : pyerr) : M A := λ st, (inl e, st).
Definition gets {A} (f : St → A) : M A := λ st, (inr (f st), st).
Definition modify (f : St → St) : M unit := λ st, (inr tt, f st).

Definition set_self (f : AutoML → AutoML) : St → St :=
  λ st, mkSt (f (self st)) (used_features st) (world st) (log st).
Definition set_used (u : list string) : St → St :=
  λ st, mkSt (self st) u (world st) (log st).
Definition set_world (w : World) : St → St :=
  λ st, mkSt (self st) (used_features st) w (log st).
Definition emit (e : event) : St → St :=
  λ st, mkSt (self st) (used_features st) (world st) (log st ++ [e]).

(** An external call: run it on the world, record it. *)
Definition call {A} (f : World → A * World) (ev : A → event) : M A :=
  λ st, let '(a, w) := f (world st) in (inr a, emit (ev a) (set_world w st)).

Definition py_assert (b : bool) (msg : string) : M unit :=
  if b then ret tt else raise (AssertionError msg).

(** Attribute access *)
Definition get__levels : M (list (list Pipe)) :=
  λ st, match _levels (self st) with
        | Some l => (inr l, st)
        | None => (inl (AttributeError (msg_attr "_levels")), st)
        end.
Definition get_levels : M (list (list Pipe)) :=
  λ st, match levels (self st) with
        | Some l => (inr l, st)
        | None => (inl (AttributeError (msg_attr "levels")), st)
        end.
Definition set__levels (l : option (list (list Pipe))) : M unit :=
  modify (set_self (λ a, mkAutoML l (levels a) (skip_conn a))).
Definition set_levels (l : list (list Pipe)) : M unit :=
  modify (set_self (λ a, mkAutoML (_levels a) (Some l) (skip_conn a))).
Definition set_skip_conn (b : bool) : M unit :=
  modify (set_self (λ a, mkAutoML (_levels a) (levels a) b)).
(** [self.levels.append(pipes)] *)
Definition levels_append (pipes : list Pipe) : M unit :=
  l ← get_levels; set_levels (l ++ [pipes]).

(** ** [_initialize] *)

Definition call_upd_model_names (p : Pipe) (name : string) : M unit :=
  call (λ w, (tt, pipe_upd_model_names p name w)) (λ _, EvUpdModelNames p name).

(** [for j, pipe in enumerate(lvl)] *)
Fixpoint name_pipes (i j : nat) (lvl : list Pipe) : M unit :=
  match lvl with
  | [] => ret tt
  | pipe :: lvl' =>
      call_upd_model_names pipe (model_name i j);;
      name_pipes i (S j) lvl'
  end.

(** [for i, lvl in enumerate(self._levels)] *)
Fixpoint name_levels (i : nat) (lvls : list (list Pipe)) : M unit :=
  match lvls with
  | [] => ret tt
  | lvl :: lvls' => name_pipes i 0 lvl;; name_levels (S i) lvls'
  end.

Definition _initialize (lvls : list (list Pipe)) (skip : bool) : M unit :=
  py_assert (bool_decide (0 < length lvls)%nat) msg_no_levels;;
  set__levels (Some lvls);;
  lv ← get__levels;
  name_levels 0 lv;;
  set_skip_conn skip.

(** [AutoML(reader, levels, ..., skip_conn=skip)] *)
Definition __init__ (lvls : list (list Pipe)) (skip : bool) : M unit :=
  _initialize lvls skip.

(** ** [fit_predict] *)

Definition call_timer_start : M unit :=
  call (λ w, (tt, timer_start w)) (λ _, EvTimerStart).

(** [self.reader.fit_read(...)]: the reader also sets its used features. *)
Definition call_fit_read (train_data : RawData)
    (train_features : option (list string)) (roles : Roles) : M Dataset :=
  λ st, let '(d, u, w) := reader_fit_read train_data train_features roles (world st) in
        (inr d, emit (EvFitRead d) (set_world w (set_used u st))).

Definition call_read (data : RawData) (features : option (list string))
    (add_array_attrs : bool) : M Dataset :=
  call (reader_read data features add_array_attrs) (EvRead add_array_attrs).

Definition call_create_iter (train : Dataset) (valid : option Dataset)
    (cv_iter : option CvIter) : M ValidIter :=
  call (λ w, (create_validation_iterator train valid None cv_iter, w))
       (EvCreateIter train valid cv_iter).

Definition call_pipe_fit (p : Pipe) (it : ValidIter) : M Dataset :=
  call (pipe_fit_predict p it) (EvPipeFit p it).

Definition call_time_limit_exceeded : M bool :=
  call time_limit_exceeded EvTimeLimitExceeded.

Definition call_child_out_of_time : M bool :=
  call (λ w, (child_out_of_time w, w)) EvChildOutOfTime.

(** The [try: ... from_dataset ... except TypeError: raise TypeError(...)]
    block: a type error is replaced by the orchestrator's own, any other
    exception passes through. *)
Definition convert (target src : Dataset) : M Dataset :=
  r ← call (λ w, (from_dataset target src, w)) (EvFromDataset target src);
  match r with
  | inr d => ret d
  | inl e => if is_TypeError e then raise (TypeError msg_skip_conn) else raise e
  end.

(** The inner loop [for k, ml_pipe in enumerate(level)].  The boolean
    of the result tells whether the loop was left by [break]. *)
Fixpoint fit_level (level : list Pipe) (train_valid : ValidIter)
    (level_predictions : list Dataset) (pipes : list Pipe)
    : M (list Dataset * list Pipe * bool) :=
  match level with
  | [] => ret (level_predictions, pipes, false)
  | ml_pipe :: level' =>
      pipe_pred ← call_pipe_fit ml_pipe train_valid;
      let level_predictions := level_predictions ++ [pipe_pred] in
      let pipes := pipes ++ [ml_pipe] in
      exceeded ← call_time_limit_exceeded;
      if exceeded then ret (level_predictions, pipes, true)
      else fit_level level' train_valid level_predictions pipes
  end.

(** The outer loop [for n, level in enumerate(self._levels, 1)], from
    level number [n] on; [N] is [len(self._levels)].  The result is the
    value of [level_predictions] and [pipes] when the loop is left. *)
Fixpoint fit_levels (N n : nat) (lvls : list (list Pipe))
    (train_valid : ValidIter) (level_predictions : pyval)
    (pipes : option (list Pipe)) : M (pyval * option (list Pipe)) :=
  match lvls with
  | [] => ret (level_predictions, pipes)
  | level :: lvls' =>
      '(preds, pipes, broke) ← fit_level level train_valid [] [];
      flg_last_level ←
        (if broke then ret true
         else out ← call_child_out_of_time;
              ret (if out then true else bool_decide (n = N)));
      if negb flg_last_level then
        levels_append pipes;;
        let level_predictions := concatenate preds in
        skip ← gets (λ st, skip_conn (self st));
        level_predictions ←
          (if skip then
             let valid_part := get_validation_data train_valid in
             converted ← convert valid_part level_predictions;
             ret (concatenate [converted; valid_part])
           else ret level_predictions);
        train_valid ← call_create_iter level_predictions None None;
        fit_levels N (S n) lvls' train_valid
          (PyDataset level_predictions) (Some pipes)
      else ret (PyList preds, Some pipes)
  end.

Definition call_blender_fit (preds : pyval) (pipes : option (list Pipe))
    : M (Dataset * list Pipe) :=
  call (blender_fit_predict preds pipes)
       (λ r, EvBlenderFit preds pipes r.1 r.2).

(** [collect_used_feats]: the union of [pipe.used_features] over
    [self.levels], as a list. *)
Definition used_feats_of (w : World) (lvls : list (list Pipe)) : gset string :=
  foldl (λ acc lvl,
           foldl (λ acc pipe, acc ∪ list_to_set (pipe_used_features pipe w)) acc lvl)
        ∅ lvls.

Definition collect_used_feats : M (list string) :=
  lvls ← get_levels;
  w ← gets world;
  ret (elements (used_feats_of w lvls)).

(** Modelled from the spec: [Reader.upd_used_features(remove)] is not in
    the sources; it takes the features of [remove] out of the reader's
    used features. *)
Definition upd_used_features (remove : list string) : M unit :=
  modify (λ st, emit (EvUpdUsedFeatures remove)
    (set_used (filter (λ f, f ∉ remove) (used_features st)) st)).

(** [fit_predict] from [valid_dataset = None] on, after the two
    assertions have passed. *)
Definition fit_predict_checked (train_dataset : Dataset)
    (cv_iter : option CvIter) (valid_data : option RawData)
    (valid_features : option (list string)) : M Dataset :=
  valid_dataset ←
    match valid_data with
    | Some v => d ← call_read v valid_features true; ret (Some d)
    | None => ret None
    end;
  train_valid ← call_create_iter train_dataset valid_dataset cv_iter;
  set_levels [];;
  lv ← get__levels;
  '(level_predictions, pipes) ← fit_levels (length lv) 1 lv train_valid PyNone None;
  '(blended_prediction, last_pipes) ← call_blender_fit level_predictions pipes;
  levels_append last_pipes;;
  used ← gets used_features;
  feats ← collect_used_feats;
  upd_used_features
    (elements (list_to_set used ∖ list_to_set feats : gset string));;
  set__levels None;;
  ret blended_prediction.

Definition fit_predict (train_data : RawData) (roles : Roles)
    (train_features : option (list string)) (cv_iter : option CvIter)
    (valid_data : option RawData) (valid_features : option (list string))
    : M Dataset :=
  call_timer_start;;
  train_dataset ← call_fit_read train_data train_features roles;
  lv ← get__levels;
  py_assert (bool_decide (length lv ≤ 1)%nat || bool_decide (is_Some (folds train_dataset)))
    msg_no_folds;;
  lv ← get__levels;
  py_assert (bool_decide (length lv ≤ 1)%nat || bool_decide (valid_data = None))
    msg_holdout;;
  fit_predict_checked train_dataset cv_iter valid_data valid_features.

(** ** [predict] *)

Definition call_pipe_predict (p : Pipe) (d : Dataset) : M Dataset :=
  call (pipe_predict p d) (EvPipePredict p d).

Definition call_blender_predict (preds : pyval) : M Dataset :=
  call (blender_predict preds) (EvBlenderPredict preds).

(** [for _n, ml_pipe in enumerate(level): level_predictions.append(...)] *)
Fixpoint predict_level (level : list Pipe) (dataset : Dataset)
    (level_predictions : list Dataset) : M (list Dataset) :=
  match level with
  | [] => ret level_predictions
  | ml_pipe :: level' =>
      pred ← call_pipe_predict ml_pipe dataset;
      predict_level level' dataset (level_predictions ++ [pred])
  end.

(** [for n, level in enumerate(self.levels, 1)], from level number [n]
    on; [N] is [len(self.levels)]. *)
Fixpoint predict_levels (N n : nat) (lvls : list (list Pipe))
    (dataset : Dataset) (blended_prediction : pyval) : M pyval :=
  match lvls with
  | [] => ret blended_prediction
  | level :: lvls' =>
      level_predictions ← predict_level level dataset [];
      if negb (bool_decide (n = N)) then
        let level_predictions := concatenate level_predictions in
        skip ← gets (λ st, skip_conn (self st));
        dataset ←
          (if skip then
             converted ← convert dataset level_predictions;
             ret (concatenate [converted; dataset])
           else ret level_predictions);
        predict_levels N (S n) lvls' dataset blended_prediction
      else
        blended ← call_blender_predict (PyList level_predictions);
        predict_levels N (S n) lvls' dataset (PyDataset blended)
  end.

Definition predict (data : RawData) (features_names : option (list string))
    : M pyval :=
  dataset ← call_read data features_names false;
  lv ← get_levels;
  predict_levels (length lv) 1 lv dataset PyNone.

(** ** Reading the record of calls *)

(** The dataset read and the state reached by the first two statements
    of [fit_predict]: [self.timer.start()] and [self.reader.fit_read]. *)
Definition read_training (train_data : RawData)
    (train_features : option (list string)) (roles : Roles) (st : St)
    : Dataset * St :=
  let r := reader_fit_read train_data train_features roles (timer_start (world st)) in
  (r.1.1, mkSt (self st) r.1.2 r.2 (log st ++ [EvTimerStart; EvFitRead r.1.1])).

(** Every run of [m] relates the state before to the state after by [P],
    whether it returns or raises. *)
Definition steps (P : St → St → Prop) {A} (m : M A) : Prop :=
  ∀ st, P st (m st).2.

(** The record of calls only grows, by calls satisfying [Q]. *)
Definition grows_by (Q : event → Prop) (st st' : St) : Prop :=
  ∃ evs, log st' = log st ++ evs ∧ Forall Q evs.

(** The naming calls of [_initialize], in order. *)
Definition naming_events (lvls : list (list Pipe)) : list event :=
  concat (imap (λ i lvl, imap (λ j p, EvUpdModelNames p (model_name i j)) lvl) lvls).

(** The calls of an inner loop that fitted [fits] and was not cut. *)
Definition fit_events (it : ValidIter) (fits : list (Pipe * Dataset)) : list event :=
  fits ≫= λ f, [EvPipeFit f.1 it f.2; EvTimeLimitExceeded false].

(** The pipelines fitted, with their predictions, since the last
    validation iterator was built. *)
Definition fit_step (acc : list (Pipe * Dataset)) (e : event)
    : list (Pipe * Dataset) :=
  match e with
  | EvCreateIter _ _ _ _ => []
  | EvPipeFit p _ d => acc ++ [(p, d)]
  | _ => acc
  end.
Definition current_fits (evs : list event) : list (Pipe * Dataset) :=
  foldl fit_step [] evs.

(** The calls of [predict]'s inner loop on [dataset]. *)
Definition predict_events (dataset : Dataset) (preds : list (Pipe * Dataset))
    : list event :=
  (λ f, EvPipePredict f.1 dataset f.2) <$> preds.

Definition is_fit (e : event) : bool :=
  match e with EvPipeFit _ _ _ => true | _ => false end.
Definition is_time_cut (e : event) : bool :=
  match e with EvTimeLimitExceeded true => true | _ => false end.
Definition is_timeout (e : event) : bool :=
  match e with
  | EvTimeLimitExceeded true | EvChildOutOfTime true => true
  | _ => false
  end.
Definition is_conversion_failure (e : event) : bool :=
  match e with EvFromDataset _ _ (inl err) => is_TypeError err | _ => false end.
(** The calls inference is allowed to make. *)
Definition is_inference (e : event) : bool :=
  match e with
  | EvRead _ _ | EvPipePredict _ _ _ | EvFromDataset _ _ _ | EvBlenderPredict _ _ => true
  | _ => false
  end.

(** The runs of the outer loop of [fit_predict], one constructor per way
    through an iteration.  [levels_run N skip n lvls it lp pp evs r kept]:
    from level number [n], with [lvls] still to do, iterator [it] and
    the variables [level_predictions = lp], [pipes = pp], the loop makes
    the calls [evs], appends [kept] to [self.levels], and ends with [r]. *)
Inductive levels_run (N : nat) (skip : bool) :
    nat → list (list Pipe) → ValidIter → pyval → option (list Pipe) →
    list event → pyerr + pyval * option (list Pipe) → list (list Pipe) → Prop :=
  | run_done n it lp pp :
      levels_run N skip n [] it lp pp [] (inr (lp, pp)) []
  (* the time limit is exceeded after the fit of [p]: [break] twice *)
  | run_cut n level lvls it lp pp fits p d rest :
      level = fits.*1 ++ p :: rest →
      levels_run N skip n (level :: lvls) it lp pp
        (fit_events it fits ++ [EvPipeFit p it d; EvTimeLimitExceeded true])
        (inr (PyList (fits.*2 ++ [d]), Some (fits.*1 ++ [p]))) []
  (* the level is the last one, or a child ran out of time *)
  | run_last n level lvls it lp pp fits (out : bool) :
      fits.*1 = level → out = true ∨ n = N →
      levels_run N skip n (level :: lvls) it lp pp
        (fit_events it fits ++ [EvChildOutOfTime out])
        (inr (PyList fits.*2, Some level)) []
  (* skip connection: the conversion raises *)
  | run_conversion_error n level lvls it lp pp fits e :
      fits.*1 = level → n ≠ N → skip = true →
      from_dataset (get_validation_data it) (concatenate fits.*2) = inl e →
      levels_run N skip n (level :: lvls) it lp pp
        (fit_events it fits ++
           [EvChildOutOfTime false;
            EvFromDataset (get_validation_data it) (concatenate fits.*2) (inl e)])
        (inl (if is_TypeError e then TypeError msg_skip_conn else e)) [level]
  (* skip connection: on to the next level *)
  | run_next_skip n level lvls it lp pp fits c evs r kept :
      fits.*1 = level → n ≠ N → skip = true →
      from_dataset (get_validation_data it) (concatenate fits.*2) = inr c →
      let next := concatenate [c; get_validation_data it] in
      let it' := create_validation_iterator next None None None in
      levels_run N skip (S n) lvls it' (PyDataset next) (Some level) evs r kept →
      levels_run N skip n (level :: lvls) it lp pp
        (fit_events it fits ++
           [EvChildOutOfTime false;
            EvFromDataset (get_validation_data it) (concatenate fits.*2) (inr c);
            EvCreateIter next None None it'] ++ evs)
        r (level :: kept)
  (* no skip connection: on to the next level *)
  | run_next_plain n level lvls it lp pp fits evs r kept :
      fits.*1 = level → n ≠ N → skip = false →
      let next := concatenate fits.*2 in
      let it' := create_validation_iterator next None None None in
      levels_run N skip (S n) lvls it' (PyDataset next) (Some level) evs r kept →
      levels_run N skip n (level :: lvls) it lp pp
        (fit_events it fits ++
           [EvChildOutOfTime false; EvCreateIter next None None it'] ++ evs)
        r (level :: kept).

(** The runs of the loop of [predict], one constructor per way through
    an iteration.  [predict_run N skip n lvls d b evs r]: from level
    number [n], with [lvls] still to do, [dataset = d] and
    [blended_prediction = b], the loop makes the calls [evs] and ends
    with [r]. *)
Inductive predict_run (N : nat) (skip : bool) :
    nat → list (list Pipe) → Dataset → pyval → list event → pyerr + pyval → Prop :=
  | prun_done n d b :
      predict_run N skip n [] d b [] (inr b)
  (* the last level goes to the blender *)
  | prun_blend n level lvls d b preds out evs r :
      preds.*1 = level → n = N →
      predict_run N skip (S n) lvls d (PyDataset out) evs r →
      predict_run N skip n (level :: lvls) d b
        (predict_events d preds ++ [EvBlenderPredict (PyList preds.*2) out] ++ evs) r
  (* skip connection: the conversion raises *)
  | prun_conversion_error n level lvls d b preds e :
      preds.*1 = level → n ≠ N → skip = true →
      from_dataset d (concatenate preds.*2) = inl e →
      predict_run N skip n (level :: lvls) d b
        (predict_events d preds ++ [EvFromDataset d (concatenate preds.*2) (inl e)])
        (inl (if is_TypeError e then TypeError msg_skip_conn else e))
  (* skip connection: on to the next level *)
  | prun_next_skip n level lvls d b preds c evs r :
      preds.*1 = level → n ≠ N → skip = true →
      from_dataset d (concatenate preds.*2) = inr c →
      predict_run N skip (S n) lvls (concatenate [c; d]) b evs r →
      predict_run N skip n (level :: lvls) d b
        (predict_events d preds ++
           [EvFromDataset d (concatenate preds.*2) (inr c)] ++ evs) r
  (* no skip connection: on to the next level *)
  | prun_next_plain n level lvls d b preds evs r :
      preds.*1 = level → n ≠ N → skip = false →
      predict_run N skip (S n) lvls (concatenate preds.*2) b evs r →
      predict_run N skip n (level :: lvls) d b (predict_events d preds ++ evs) r.

Definition is_blender_call (e : event) : bool :=
  match e with
  | EvBlenderFit _ _ _ _ | EvBlenderPredict _ _ => true
  | _ => false
  end.

(** Two states with the same object and the same collaborators; they
    may differ in the record of calls and in the reader's bookkeeping. *)
Definition agree (a b : St) : Prop := self a = self b ∧ world a = world b.

(** [m] reads nothing else: from states that agree it gives the same
    result and states that agree. *)
Definition stable {A} (m : M A) : Prop :=
  ∀ a b, agree a b → (m a).1 = (m b).1 ∧ agree (m a).2 (m b).2.

(** The collaborators are left as they were. *)
Definition same_world (st st' : St) : Prop := world st' = world st.

(** What the blender was given, call by call. *)
Definition blender_args (evs : list event) : list pyval :=
  omap (λ e, match e with
             | EvBlenderFit preds _ _ _ | EvBlenderPredict preds _ => Some preds
             | _ => None
             end) evs.

Definition any_event : event → Prop := λ _, True.

(** ** More ways to read the record of calls *)


(** The pipelines asked to predict, in order. *)
Definition predicted_pipes (evs : list event) : list Pipe :=
  omap (λ e, match e with EvPipePredict p _ _ => Some p | _ => None end) evs.

(** The pipelines fitted, in order. *)
Definition fitted_pipes (evs : list event) : list Pipe :=
  omap (λ e, match e with EvPipeFit p _ _ => Some p | _ => None end) evs.

(** The validation iterators built, in order, and the last of them. *)
Definition iterators (evs : list event) : list ValidIter :=
  omap (λ e, match e with EvCreateIter _ _ _ it => Some it | _ => None end) evs.
Definition last_iter (evs : list event) : option ValidIter :=
  last (iterators evs).
Definition is_create_iter (e : event) : bool :=
  match e with EvCreateIter _ _ _ _ => true | _ => false end.

Definition is_child_timeout (e : event) : bool :=
  match e with EvChildOutOfTime true => true | _ => false end.


(** ** [collect_model_stats]

    [pipe.ml_algos] is a list of algorithms, each with a [name] and the
    list [models] of its fitted models. *)

Class AlgoOps (MLAlgo Model : Type) := {
  pipe_ml_algos : Pipe → World → list MLAlgo;
  algo_name : MLAlgo → string;
  algo_models : MLAlgo → list Model;
}.

Context {MLAlgo Model : Type} `{!AlgoOps MLAlgo Model}.

(** The three nested loops over [self.levels], filling the dict. *)
Definition model_stats_of (w : World) (lvls : list (list Pipe)) : gmap string nat :=
  foldl (λ model_stats lvl,
    foldl (λ model_stats pipe,
      foldl (λ model_stats ml_algo,
               <[algo_name ml_algo := length (algo_models ml_algo)]> model_stats)
            model_stats (pipe_ml_algos pipe w))
      model_stats lvl)
    ∅ lvls.

Definition collect_model_stats : M (gmap string nat) :=
  lvls ← get_levels;
  w ← gets world;
  ret (model_stats_of w lvls).

(** The algorithms the loops visit, in the order they visit them. *)
Definition retained_algos (w : World) (lvls : list (list Pipe)) : list MLAlgo :=
  concat lvls ≫= λ pipe, pipe_ml_algos pipe w.

End Orchestrator.

Arguments pyval : clear implicits.
Arguments event : clear implicits.
Arguments AutoML : clear implicits.
Arguments St : clear implicits.

(** ** A small concrete set of collaborators

    Datasets are column lists with a type tag and a fold flag, pipelines
    are numbers, the clock counts pipeline fits, and the blender keeps
    the first pipeline (as the default best-model selector keeps one). *)

Module Toy.

Record dataset : Type := mkDs {
  ds_kind : nat;
  ds_folds : option (list nat);
  ds_cols : list string;
}.

Record tworld : Type := mkW {
  clock : nat;          (* pipelines fitted so far *)
  budget : nat;         (* the global limit, in pipeline fits *)
  child_flag : bool;    (* timer.child_out_of_time *)
  fitted : list (nat * list string);  (* pipeline, the columns it selected *)
}.

(** A fitted pipeline has selected the first two columns of its input. *)
Definition selected (p : nat) (w : tworld) : list string :=
  default [] (snd <$> head (filter (λ x, x.1 = p) (fitted w))).

Definition table (cols : list string) : dataset := mkDs 0 (Some [0; 1]) cols.
Definition table_no_folds (cols : list string) : dataset := mkDs 0 None cols.
(** A dataset type that predictions cannot be converted to. *)
Definition sparse (cols : list string) : dataset := mkDs 2 (Some [0; 1]) cols.

Definition concat_ds (ds : list dataset) : dataset :=
  mkDs (default 1 (ds_kind <$> head ds)) (head ds ≫= ds_folds)
       (concat (ds_cols <$> ds)).

#[global] Instance collaborators :
  Collaborators dataset nat (dataset * option dataset) dataset unit unit tworld := {|
  timer_start := λ w, mkW 0 (budget w) (child_flag w) (fitted w);
  time_limit_exceeded := λ w, (bool_decide (budget w < clock w)%nat, w);
  child_out_of_time := child_flag;
  reader_fit_read := λ data _ _ w, (data, ds_cols data, w);
  reader_read := λ data _ _ w, (data, w);
  folds := ds_folds;
  concatenate := concat_ds;
  from_dataset := λ target src,
    if bool_decide (ds_kind target = 2) then inl (TypeError "unsupported")
    else inr (mkDs (ds_kind target) (ds_folds src) (ds_cols src));
  create_validation_iterator := λ train valid _ _, (train, valid);
  get_validation_data := λ it, default it.1 it.2;
  pipe_upd_model_names := λ _ _ w, w;
  pipe_fit_predict := λ p it w,
    (mkDs 1 None ["pred_" +:+ pretty p],
     mkW (S (clock w)) (budget w) (child_flag w)
         ((p, take 2 (ds_cols it.1)) :: fitted w));
  pipe_predict := λ p d w, (mkDs 1 None ["pred_" +:+ pretty p], w);
  pipe_used_features := selected;
|}.

#[global] Instance blender : @BlenderOps dataset nat tworld := {|
  blender_fit_predict := λ preds pipes w,
    (match preds with
     | PyList (d :: _) => d
     | PyDataset d => d
     | _ => mkDs 1 None []
     end, take 1 (default [] pipes), w);
  blender_predict := λ preds w,
    (match preds with
     | PyList (d :: _) => d
     | PyDataset d => d
     | _ => mkDs 1 None []
     end, w);
|}.

Abbreviation state := (St dataset nat (dataset * option dataset) unit tworld).

(** A fresh object, before [__init__]. *)
Definition fresh (bud : nat) (child : bool) : state :=
  mkSt (mkAutoML None None false) [] (mkW 0 bud child []) [].

(** [AutoML(reader, lvls, skip_conn=skip)] under the given budget. *)
Definition init (lvls : list (list nat)) (skip : bool) (bud : nat) (child : bool)
    : state :=
  (_initialize lvls skip (fresh bud child)).2.

(** The inputs of the examples: a table with folds, two levels. *)
Definition data : dataset := table ["a"; "b"; "c"].
Definition two_levels : list (list nat) := [[1; 2]; [3]].

(** [automl.fit_predict(d, roles, cv_iter=cv)] *)
Definition fit (d : dataset) (cv : option unit) (st : state)
    : (pyerr + dataset) * state :=
  fit_predict d tt None cv None None st.

(** [automl.fit_predict(d, roles, valid_data=v)] *)
Definition fit_holdout (d v : dataset) (st : state) : (pyerr + dataset) * state :=
  fit_predict d tt None None (Some v) None st.

(** The calls made by a run that started in [st] and ended in [st']. *)
Definition calls (st st' : state) :=
  drop (length (log st)) (log st').

(** Two levels under a budget of ten fits, fitted on [data]. *)
Definition st_ok : state := init two_levels false 10 false.
Definition ok_run : (pyerr + dataset) * state := fit data None st_ok.

(** The same under a budget the first fit exhausts. *)
Definition st_cut : state := init two_levels false 0 false.
Definition cut_run : (pyerr + dataset) * state := fit data None st_cut.

(** With skip connections, fitted on [data] and on data whose type
    predictions cannot be converted to. *)
Definition st_skip : state := init two_levels true 10 false.
Definition skip_run : (pyerr + dataset) * state := fit data None st_skip.
Definition sparse_run : (pyerr + dataset) * state :=
  fit (sparse ["a"; "b"; "c"]) None st_skip.
Definition sparse_predict :=
  predict (sparse ["a"; "b"; "c"]) None skip_run.2.
Definition failed_conversion :=
  EvFromDataset (ValidIter:=dataset * option dataset) (CvIter:=unit) (Pipe:=nat)
    (sparse ["a"; "b"; "c"])
    (concat_ds [mkDs 1 None ["pred_1"]; mkDs 1 None ["pred_2"]])
    (inl (TypeError "unsupported")).

(** Inference with the fitted object. *)
Definition ok_predict := predict data None ok_run.2.

End Toy.

(** ** Algorithms of the concrete pipelines

    Pipeline [p] holds a boosting algorithm with [p] fitted models and
    a linear one with a single model, both named after the pipeline. *)

Module ToyMore.

Record algo : Type := mkAlgo {
  a_name : string;
  a_models : list nat;
}.

#[global] Instance algos : @AlgoOps nat Toy.tworld algo nat := {|
  pipe_ml_algos := λ p w,
    [mkAlgo ("gbm_" +:+ pretty p) (seq 0 p); mkAlgo ("linear_" +:+ pretty p) [0]];
  algo_name := a_name;
  algo_models := a_models;
|}.

(** The object fitted with the same pipeline in both levels. *)
Definition st_twice : Toy.state :=
  (Toy.fit Toy.data None (Toy.init [[1; 2]; [1]] false 10 false)).2.

(** Two levels under a timer whose [child_out_of_time] is set. *)
Definition st_child : Toy.state := Toy.init Toy.two_levels false 10 true.
Definition child_run : (pyerr + Toy.dataset) * Toy.state :=
  Toy.fit Toy.data None st_child.


End ToyMore.

(** * Properties *)

(** ** Decimal names are separated by their underscores *)

Lemma pretty_N_char_digit (x : N) : pretty_N_char x ≠ "_"%char.
Proof. unfold pretty_N_char. by repeat case_match. Qed.

Lemma pretty_N_go_no_underscore (x : N) (s : string) :
  has_char "_" s = false → has_char "_" (pretty_N_go x s) = false.
Proof.
  revert s. induction (N.lt_wf_0 x) as [x _ IH]; intros s Hs.
  destruct (decide (x = 0)%N) as [->|Hx]; [by rewrite pretty_N_go_0|].
  rewrite pretty_N_go_step by lia. apply IH.
  - apply N.div_lt; lia.
  - simpl. rewrite Hs, orb_false_r. apply bool_decide_eq_false, pretty_N_char_digit.
Qed.

Lemma pretty_nat_no_underscore (n : nat) : has_char "_" (pretty n) = false.
Proof.
  unfold pretty, pretty_nat, pretty, pretty_N.
  case_decide; [done|]. by apply pretty_N_go_no_underscore.
Qed.

Lemma split_at_underscore (s1 s2 r1 r2 : string) :
  has_char "_" s1 = false → has_char "_" s2 = false →
  s1 +:+ String "_" r1 = s2 +:+ String "_" r2 → s1 = s2 ∧ r1 = r2.
Proof.
  revert s2. induction s1 as [|a s1 IH]; intros [|b s2] H1 H2 Heq; simpl in *.
  - by injection Heq.
  - injection Heq as <- _. by rewrite bool_decide_eq_true_2 in H2.
  - injection Heq as -> _. by rewrite bool_decide_eq_true_2 in H1.
  - injection Heq as -> Heq.
    apply orb_false_elim in H1 as [_ H1]. apply orb_false_elim in H2 as [_ H2].
    destruct (IH s2 H1 H2 Heq) as [-> ->]. done.
Qed.

Lemma model_name_inj (i j i' j' : nat) :
  model_name i j = model_name i' j' → i = i' ∧ j = j'.
Proof.
  unfold model_name. intros Heq. simpl in Heq. injection Heq as Heq.
  apply split_at_underscore in Heq as [Hi Hj];
    [|apply pretty_nat_no_underscore..].
  simpl in Hj. injection Hj as Hj.
  split; by apply (inj pretty).
Qed.

Section Properties.

Context {Dataset Pipe ValidIter RawData Roles CvIter World : Type}.
Context `{!Collaborators Dataset Pipe ValidIter RawData Roles CvIter World}.
Context `{!@BlenderOps Dataset Pipe World}.

Abbreviation St := (St Dataset Pipe ValidIter CvIter World).
Abbreviation event := (event Dataset Pipe ValidIter CvIter).

Implicit Types (st : St) (evs : list event) (lvls : list (list Pipe)).
Implicit Types (Q : event → Prop) (it : ValidIter).
Implicit Types (fits : list (Pipe * Dataset)).

#[local] Abbreviation grows Q := (grows_by (World:=World) Q).

(** ** The monad, step by step *)

Lemma bind_inv {A B} (m : M A) (f : A → M B) st r st' :
  bind m f st = (r, st') →
  (∃ e, m st = (inl e, st') ∧ r = inl e) ∨
  (∃ a st1, m st = (inr a, st1) ∧ f a st1 = (r, st')).
Proof.
  unfold bind. destruct (m st) as [[e|a] st1]; intros Heq.
  - left. exists e. by simplify_eq.
  - right. by exists a, st1.
Qed.

Lemma bind_ok {A B} (m : M A) (f : A → M B) st a st1 :
  m st = (inr a, st1) → bind m f st = f a st1.
Proof. unfold bind. by intros ->. Qed.

Lemma call_eq {A} (f : World → A * World) (ev : A → event) st :
  call f ev st =
  (inr (f (world st)).1, emit (ev (f (world st)).1) (set_world (f (world st)).2 st)).
Proof. unfold call. by destruct (f (world st)). Qed.

(** ** Naming in [_initialize] *)

Lemma name_pipes_run (i j : nat) (lvl : list Pipe) st :
  ∃ st', name_pipes i j lvl st = (inr tt, st') ∧
    self st' = self st ∧ used_features st' = used_features st ∧
    log st' = log st ++ imap (λ k p, EvUpdModelNames p (model_name i (j + k))) lvl.
Proof.
  revert j st. induction lvl as [|p lvl IH]; intros j st; simpl.
  - exists st. by rewrite app_nil_r.
  - unfold call_upd_model_names. erewrite bind_ok by apply call_eq. simpl.
    destruct (IH (S j) (emit (EvUpdModelNames p (model_name i j))
      (set_world (pipe_upd_model_names p (model_name i j) (world st)) st)))
      as (st' & -> & Hs & Hu & Hl).
    exists st'. split_and!; [done..|].
    rewrite Hl. simpl. rewrite <-app_assoc. simpl. rewrite Nat.add_0_r.
    do 2 f_equal. apply imap_ext. intros k x _. simpl. f_equal. f_equal. lia.
Qed.

Lemma name_levels_run (i : nat) lvls st :
  ∃ st', name_levels i lvls st = (inr tt, st') ∧
    self st' = self st ∧ used_features st' = used_features st ∧
    log st' = log st ++
      concat (imap (λ k lvl, imap (λ j p, EvUpdModelNames p (model_name (i + k) j)) lvl) lvls).
Proof.
  revert i st. induction lvls as [|lvl lvls IH]; intros i st; simpl.
  - exists st. by rewrite app_nil_r.
  - destruct (name_pipes_run i 0 lvl st) as (st1 & Hrun & Hs1 & Hu1 & Hl1).
    erewrite bind_ok by exact Hrun.
    destruct (IH (S i) st1) as (st' & -> & Hs & Hu & Hl).
    exists st'. split_and!; [congruence..|].
    rewrite Hl, Hl1, <-app_assoc, Nat.add_0_r. do 3 f_equal.
    apply imap_ext. intros k x _. simpl. by rewrite Nat.add_succ_r.
Qed.

Lemma initialize_run lvls (skip : bool) st :
  (0 < length lvls)%nat →
  ∃ st', _initialize lvls skip st = (inr tt, st') ∧
    self st' = mkAutoML (Some lvls) (levels (self st)) skip ∧
    used_features st' = used_features st ∧
    log st' = log st ++ naming_events lvls.
Proof.
  intros Hlen. unfold _initialize, py_assert.
  rewrite bool_decide_eq_true_2 by done.
  unfold set__levels, set_skip_conn, modify, get__levels, ret, bind at 1 2 3; simpl.
  destruct (name_levels_run 0 lvls
    (set_self (λ a, mkAutoML (Some lvls) (levels a) (skip_conn a)) st))
    as (st1 & Hrun & Hs & Hu & Hl).
  erewrite bind_ok by exact Hrun.
  eexists. split; [done|]. simpl. rewrite Hs, Hu, Hl. done.
Qed.

(** C3, as the code has it: [_initialize] on a non-empty level list
    succeeds and calls [upd_model_names] exactly once per pipeline, in
    level order then pipeline order, the pipeline at zero-based position
    [j] of the level at zero-based position [i] receiving the name
    "Lvl_<i>_Pipe_<j>" (decimal indices); these names are deterministic
    and differ for different positions. *)
Theorem initialize_model_names lvls (skip : bool) st :
  (0 < length lvls)%nat →
  ∃ st', _initialize lvls skip st = (inr tt, st') ∧
    log st' = log st ++
      concat (imap (λ i lvl,
        imap (λ j p, EvUpdModelNames p ("Lvl_" +:+ pretty i +:+ "_Pipe_" +:+ pretty j)) lvl)
        lvls) ∧
    ∀ i j i' j' : nat,
      "Lvl_" +:+ pretty i +:+ "_Pipe_" +:+ pretty j =
      "Lvl_" +:+ pretty i' +:+ "_Pipe_" +:+ pretty j' → i = i' ∧ j = j'.
Proof.
  intros Hlen. destruct (initialize_run lvls skip st Hlen) as (st' & Hrun & _ & _ & Hl).
  exists st'. split_and!; [done|exact Hl|]. apply model_name_inj.
Qed.

(** ** The assertions of [fit_predict] *)

Lemma fit_predict_eq td roles tf cv vd vf st :
  fit_predict td roles tf cv vd vf st =
  let '(d, st2) := read_training td tf roles st in
  match _levels (self st) with
  | None => (inl (AttributeError (msg_attr "_levels")), st2)
  | Some lv =>
      if bool_decide (length lv ≤ 1)%nat || bool_decide (is_Some (folds d)) then
        if bool_decide (length lv ≤ 1)%nat || bool_decide (vd = None) then
          fit_predict_checked d cv vd vf st2
        else (inl (AssertionError msg_holdout), st2)
      else (inl (AssertionError msg_no_folds), st2)
  end.
Proof.
  unfold fit_predict, read_training, call_timer_start, call_fit_read.
  erewrite bind_ok by apply call_eq. simpl.
  unfold bind at 1. simpl.
  destruct (reader_fit_read td tf roles (timer_start (world st))) as [[d u] w].
  cbn [fst snd].
  replace (emit (EvFitRead d) _) with
    (mkSt (self st) u w (log st ++ [EvTimerStart; EvFitRead d]))
    by (unfold emit, set_world, set_used; simpl; by rewrite <-app_assoc).
  unfold get__levels, py_assert, ret, raise, bind. cbn.
  destruct (_levels (self st)) as [lv|] eqn:Hlv; [|done].
  destruct (bool_decide (length lv ≤ 1)%nat || bool_decide (is_Some (folds d))); [|done].
  cbn. rewrite Hlv.
  destruct (bool_decide (length lv ≤ 1)%nat || bool_decide (vd = None)); done.
Qed.

(** C9: configuration errors come before any training.  The constructor
    rejects an empty level list with an assertion error before it sets
    an attribute or names a pipeline; [fit_predict] on more than one
    level with a holdout validation dataset raises an assertion error
    (the one about holdout validation, or the one about folds when the
    training dataset has none) right after the training data is read:
    the object is unchanged and no pipeline has been fitted. *)
Theorem configuration_errors_before_training td roles tf cv v vf st lv
    (skip : bool) st0 :
  _levels (self st) = Some lv → (1 < length lv)%nat →
  __init__ [] skip st0 = (inl (AssertionError msg_no_levels), st0) ∧
  ∃ msg st',
    fit_predict td roles tf cv (Some v) vf st = (inl (AssertionError msg), st') ∧
    msg = (if bool_decide (is_Some (folds (read_training td tf roles st).1))
           then msg_holdout else msg_no_folds) ∧
    self st' = self st ∧
    log st' = log st ++ [EvTimerStart; EvFitRead (read_training td tf roles st).1] ∧
    Forall (λ e, is_fit e = false) (drop (length (log st)) (log st')).
Proof.
  intros Hlv Hlen. split; [done|].
  rewrite fit_predict_eq.
  destruct (read_training td tf roles st) as [d st2] eqn:Hread.
  assert (self st2 = self st ∧ log st2 = log st ++ [EvTimerStart; EvFitRead d])
    as [Hs Hl] by (by inversion Hread).
  rewrite Hlv. rewrite (bool_decide_eq_false_2 (length lv ≤ 1)%nat) by lia. simpl.
  assert (Hdrop : Forall (λ e : event, is_fit e = false)
            (drop (length (log st)) (log st2))).
  { rewrite Hl, drop_app_length. by repeat constructor. }
  destruct (bool_decide (is_Some (folds d))); eexists _, st2; done.
Qed.

(** ** Invariants that every statement keeps *)

Section Steps.
Context (P : St → St → Prop) `{!PreOrder P}.

Lemma steps_ret {A} (a : A) : steps P (ret a).
Proof. intros st. simpl. reflexivity. Qed.

Lemma steps_raise {A} (e : pyerr) : steps P (raise (A:=A) e).
Proof. intros st. simpl. reflexivity. Qed.

Lemma steps_gets {A} (f : St → A) : steps P (gets f).
Proof. intros st. simpl. reflexivity. Qed.

Lemma steps_bind {A B} (m : M A) (f : A → M B) :
  steps P m → (∀ a, steps P (f a)) → steps P (bind m f).
Proof.
  intros Hm Hf st. unfold bind. specialize (Hm st).
  destruct (m st) as [[e|a] st1]; simpl in *; [done|].
  etrans; [exact Hm|apply Hf].
Qed.

Lemma steps_py_assert b msg : steps P (py_assert b msg).
Proof. destruct b; [apply steps_ret|apply steps_raise]. Qed.

Lemma steps_get__levels : steps P get__levels.
Proof. intros st. unfold get__levels. destruct (_levels (self st)); simpl; reflexivity. Qed.

Lemma steps_get_levels : steps P get_levels.
Proof. intros st. unfold get_levels. destruct (levels (self st)); simpl; reflexivity. Qed.
End Steps.

#[local] Instance grows_by_preorder (Q : event → Prop) :
  PreOrder (grows Q).
Proof.
  split.
  - intros st. exists []. by rewrite app_nil_r.
  - intros st1 st2 st3 (e1 & H1 & Q1) (e2 & H2 & Q2). exists (e1 ++ e2).
    rewrite H2, H1, <-app_assoc. split; [done|]. by apply Forall_app.
Qed.

Lemma steps_call_grows Q {A} (f : World → A * World) (ev : A → event) :
  (∀ a, Q (ev a)) → steps (grows Q) (call f ev).
Proof.
  intros HQ st. rewrite call_eq. simpl. eexists [_]. split; [done|].
  constructor; [apply HQ|constructor].
Qed.

Lemma steps_modify_self Q (f : AutoML Pipe → AutoML Pipe) :
  steps (grows Q) (modify (set_self f)).
Proof. intros st. exists []. simpl. by rewrite app_nil_r. Qed.

Create HintDb steps.
#[local] Hint Resolve steps_ret steps_raise steps_gets steps_py_assert
  steps_get__levels steps_get_levels steps_modify_self : steps.

Ltac steps_auto :=
  repeat first
    [ apply steps_bind; [try apply _|..]
    | progress intros
    | apply steps_call_grows; done
    | solve [eauto with steps typeclass_instances]
    | match goal with
      | |- steps _ (match ?x with _ => _ end) => destruct x
      | |- steps _ (if ?b then _ else _) => destruct b
      | |- steps _ (let '(_, _) := ?x in _) => destruct x
      end ].

Lemma steps_levels_append Q pipes : steps (grows Q) (levels_append pipes).
Proof. unfold levels_append, set_levels. steps_auto. Qed.

Lemma steps_convert target src : steps (grows any_event) (convert target src).
Proof. unfold convert. steps_auto. Qed.

Lemma steps_fit_level level it preds pipes :
  steps (grows any_event) (fit_level level it preds pipes).
Proof.
  revert preds pipes. induction level as [|p level IH]; intros preds pipes; simpl.
  - steps_auto.
  - unfold call_pipe_fit, call_time_limit_exceeded. steps_auto.
Qed.

Lemma steps_fit_levels N n lvls it lp pipes :
  steps (grows any_event) (fit_levels N n lvls it lp pipes).
Proof.
  revert n it lp pipes. induction lvls as [|level lvls IH]; intros n it lp pipes; simpl.
  - steps_auto.
  - unfold call_child_out_of_time, call_create_iter.
    pose proof steps_fit_level. pose proof steps_levels_append.
    pose proof steps_convert.
    steps_auto.
Qed.

Lemma steps_upd_used_features remove :
  steps (grows (any_event : event → Prop)) (upd_used_features remove).
Proof. intros st. eexists [_]. simpl. split; [done|]. by repeat constructor. Qed.

Lemma steps_collect_used_feats Q : steps (grows Q) collect_used_feats.
Proof. unfold collect_used_feats. steps_auto. Qed.

(** Once the assertions have passed, [fit_predict] makes at least one
    more call. *)
Lemma fit_predict_checked_grows d cv vd vf st :
  ∃ e evs, log (fit_predict_checked d cv vd vf st).2 = log st ++ e :: evs.
Proof.
  unfold fit_predict_checked.
  pose proof steps_fit_levels. pose proof steps_levels_append.
  pose proof steps_upd_used_features. pose proof steps_collect_used_feats.
  destruct vd as [v|].
  - unfold call_read. erewrite bind_ok; [|erewrite bind_ok by apply call_eq; done].
    unfold call_create_iter. erewrite bind_ok by apply call_eq.
    lazymatch goal with
    | |- ∃ e evs, log (?m ?s).2 = _ =>
        assert (Hs : steps (grows any_event) m)
          by (unfold call_blender_fit, set_levels, set__levels; steps_auto);
        destruct (Hs s) as (evs & Hl & _)
    end.
    rewrite Hl. simpl. rewrite <-!app_assoc. simpl. eauto.
  - unfold call_create_iter. erewrite bind_ok by done.
    erewrite bind_ok by apply call_eq.
    lazymatch goal with
    | |- ∃ e evs, log (?m ?s).2 = _ =>
        assert (Hs : steps (grows any_event) m)
          by (unfold call_blender_fit, set_levels, set__levels; steps_auto);
        destruct (Hs s) as (evs & Hl & _)
    end.
    rewrite Hl. simpl. rewrite <-!app_assoc. simpl. eauto.
Qed.

(** C2, as the code has it: with more than one level, [fit_predict]
    raises the assertion error "Not possible to fit more than 1 level
    without cv folds" right after reading the training data, before any
    pipeline trains, if and only if the training dataset has no fold
    information; the custom [cv_iter] plays no part, so supplying one
    does not make up for missing folds. *)
Theorem folds_assertion_ignores_cv_iter td roles tf cv vd vf st lv :
  _levels (self st) = Some lv → (1 < length lv)%nat →
  ((fit_predict td roles tf cv vd vf st).1 = inl (AssertionError msg_no_folds) ∧
   log (fit_predict td roles tf cv vd vf st).2 =
     log st ++ [EvTimerStart; EvFitRead (read_training td tf roles st).1])
  ↔ folds (read_training td tf roles st).1 = None.
Proof.
  intros Hlv Hlen. rewrite fit_predict_eq.
  destruct (read_training td tf roles st) as [d st2] eqn:Hread.
  assert (log st2 = log st ++ [EvTimerStart; EvFitRead d]) as Hl
    by (by inversion Hread).
  rewrite Hlv. rewrite (bool_decide_eq_false_2 (length lv ≤ 1)%nat) by lia. simpl.
  destruct (folds d) as [fl|] eqn:Hfolds.
  - rewrite bool_decide_eq_true_2 by eauto.
    split; [|done]. intros [Hr Hlog]. exfalso.
    destruct (bool_decide (vd = None)); [|done].
    destruct (fit_predict_checked_grows d cv vd vf st2) as (e & evs & Hgrow).
    rewrite Hgrow, Hl, <-app_assoc in Hlog.
    apply app_inv_head in Hlog. discriminate.
  - rewrite bool_decide_eq_false_2 by (by intros [? ?]). done.
Qed.

(** ** The loops of [fit_predict], run by run *)

Lemma fit_level_run level it preds pipes st :
  ∃ fits st',
    self st' = self st ∧ used_features st' = used_features st ∧
    ((fit_level level it preds pipes st =
        (inr (preds ++ fits.*2, pipes ++ fits.*1, false), st') ∧
      fits.*1 = level ∧ log st' = log st ++ fit_events it fits)
     ∨
     (∃ p d rest,
        fit_level level it preds pipes st =
          (inr (preds ++ fits.*2 ++ [d], pipes ++ fits.*1 ++ [p], true), st') ∧
        level = fits.*1 ++ p :: rest ∧
        log st' = log st ++ fit_events it fits ++
                    [EvPipeFit p it d; EvTimeLimitExceeded true])).
Proof.
  revert preds pipes st.
  induction level as [|p level IH]; intros preds pipes st; simpl.
  - exists [], st. split_and!; [done..|]. left. by rewrite !app_nil_r.
  - unfold call_pipe_fit, call_time_limit_exceeded.
    erewrite bind_ok by apply call_eq. erewrite bind_ok by apply call_eq.
    set (d := (pipe_fit_predict p it (world st)).1).
    set (st1 := emit (EvPipeFit p it d) _).
    set (b := (time_limit_exceeded (world st1)).1).
    set (st2 := emit (EvTimeLimitExceeded b) _).
    assert (self st2 = self st ∧ used_features st2 = used_features st ∧
            log st2 = log st ++ [EvPipeFit p it d; EvTimeLimitExceeded b])
      as (Hs & Hu & Hl).
    { subst st2 st1. simpl. by rewrite <-app_assoc. }
    destruct b eqn:Hb.
    + exists [], st2. split_and!; [done..|]. right. exists p, d, level.
      by rewrite Hl.
    + destruct (IH (preds ++ [d]) (pipes ++ [p]) st2)
        as (fits & st' & Hs' & Hu' & Hcase).
      exists ((p, d) :: fits), st'. split_and!; [congruence..|].
      destruct Hcase as [(Hrun & Hfits & Hlog)|(q & dq & rest & Hrun & Hfits & Hlog)].
      * left. rewrite Hrun, Hlog, Hl, <-!app_assoc. simpl.
        split_and!; [done|by f_equal|done].
      * right. exists q, dq, rest.
        rewrite Hrun, Hlog, Hl, <-!app_assoc. simpl.
        split_and!; [done|by f_equal|done].
Qed.

Lemma levels_append_eq pipes st l0 :
  levels (self st) = Some l0 →
  levels_append pipes st =
  (inr tt, set_self (λ a, mkAutoML (_levels a) (Some (l0 ++ [pipes])) (skip_conn a)) st).
Proof. intros Hl. unfold levels_append, get_levels, bind. by rewrite Hl. Qed.

Lemma convert_eq target src st :
  convert target src st =
  (match from_dataset target src with
   | inr d => inr d
   | inl e => inl (if is_TypeError e then TypeError msg_skip_conn else e)
   end,
   emit (EvFromDataset target src (from_dataset target src)) (set_world (world st) st)).
Proof.
  unfold convert. erewrite bind_ok by apply call_eq. simpl.
  destruct (from_dataset target src) as [e|d]; [|done]. by destruct (is_TypeError e).
Qed.

Lemma fit_levels_run N n lvls it lp pp st l0 r st' :
  levels (self st) = Some l0 →
  fit_levels N n lvls it lp pp st = (r, st') →
  ∃ evs kept,
    levels_run N (skip_conn (self st)) n lvls it lp pp evs r kept ∧
    log st' = log st ++ evs ∧
    _levels (self st') = _levels (self st) ∧
    levels (self st') = Some (l0 ++ kept) ∧
    skip_conn (self st') = skip_conn (self st) ∧
    used_features st' = used_features st.
Proof.
  revert n it lp pp st l0 r st'.
  induction lvls as [|level lvls IH]; intros n it lp pp st l0 r st' Hl0 Hrun;
    simpl in Hrun.
  { injection Hrun as <- <-. exists [], []. rewrite !app_nil_r.
    split_and!; [constructor|done..]. }
  destruct (fit_level_run level it [] [] st)
    as (fits & st1 & Hs1 & Hu1 & [(Hfit & Hfits & Hlog1)|(p & d & rest & Hfit & Hfits & Hlog1)]);
    rewrite (bind_ok _ _ _ _ _ Hfit) in Hrun; simpl in Hrun; subst level.
  2:{ (* cut by the time limit *)
    erewrite bind_ok in Hrun by done. simpl in Hrun. injection Hrun as <- <-.
    exists (fit_events it fits ++ [EvPipeFit p it d; EvTimeLimitExceeded true]), [].
    rewrite app_nil_r, Hs1.
    split_and!; [by apply (run_cut _ _ _ _ _ _ _ _ _ _ _ rest)|done..]. }
  unfold call_child_out_of_time in Hrun.
  erewrite bind_ok in Hrun by (erewrite bind_ok by apply call_eq; done).
  simpl in Hrun.
  set (out := child_out_of_time (world st1)) in *.
  set (st2 := emit (EvChildOutOfTime out) _) in *.
  assert (self st2 = self st ∧ used_features st2 = used_features st ∧
          log st2 = log st ++ fit_events it fits ++ [EvChildOutOfTime out])
    as (Hs2 & Hu2 & Hlog2).
  { subst st2. simpl. by rewrite Hlog1, <-app_assoc. }
  clearbody st2.
  destruct (if out then true else bool_decide (n = N)) eqn:Hflg; simpl in Hrun.
  { (* the last level *)
    injection Hrun as <- <-.
    exists (fit_events it fits ++ [EvChildOutOfTime out]), [].
    rewrite app_nil_r, Hs2.
    split_and!; [|done..]. apply run_last; [done|].
    destruct out; [by left|right]. by apply bool_decide_eq_true in Hflg. }
  destruct out; [done|]. apply bool_decide_eq_false in Hflg.
  rewrite (bind_ok _ _ _ _ _ (levels_append_eq _ st2 l0 ltac:(by rewrite Hs2))) in Hrun.
  unfold gets at 1 in Hrun. unfold bind at 1 in Hrun. simpl in Hrun.
  set (st3 := set_self _ st2) in *.
  assert (_levels (self st3) = _levels (self st) ∧
          levels (self st3) = Some (l0 ++ [fits.*1]) ∧
          skip_conn (self st3) = skip_conn (self st) ∧
          used_features st3 = used_features st ∧ log st3 = log st2)
    as (H_3 & Hl3 & Hk3 & Hu3 & Hlog3).
  { subst st3. simpl. by rewrite Hs2. }
  clearbody st3.
  rewrite Hs2 in Hrun.
  destruct (skip_conn (self st)) eqn:Hskip.
  - (* skip connection *)
    apply bind_inv in Hrun as [(e & Hconv & ->)|(next & st5 & Hconv & Hrun)].
    + apply bind_inv in Hconv as [(e' & Hconv & [= ->])|(c & st4 & _ & Hret)];
        [|discriminate].
      rewrite convert_eq in Hconv.
      destruct (from_dataset _ _) as [err|c] eqn:Hfrom; [|discriminate].
      injection Hconv as <- <-. eexists _, [fits.*1]. simpl.
      rewrite H_3, Hl3, Hk3, Hu3, Hlog3, Hlog2, <-!app_assoc. simpl.
      split_and!; [|done..].
      by apply run_conversion_error.
    + apply bind_inv in Hconv as [(e' & _ & [=])|(c & st4 & Hconv & Hret)].
      injection Hret as <- <-.
      rewrite convert_eq in Hconv.
      destruct (from_dataset _ _) as [err|c'] eqn:Hfrom; [discriminate|].
      injection Hconv as -> <-.
      unfold call_create_iter in Hrun.
      erewrite bind_ok in Hrun by apply call_eq. simpl in Hrun.
      apply IH with (l0 := l0 ++ [fits.*1]) in Hrun; [|simpl; by rewrite Hl3].
      destruct Hrun as (evs & kept & Hruns & Hlog & H_ & Hl & Hk & Hu).
      simpl in *. eexists _, (fits.*1 :: kept). split.
      { apply run_next_skip; [done..|]. rewrite Hk3 in Hruns. exact Hruns. }
      rewrite H_, Hl, Hk, Hu, Hlog, Hlog3, Hlog2, H_3, Hk3, Hu3, <-!app_assoc.
      done.
  - (* no skip connection *)
    unfold ret at 1 in Hrun. unfold bind at 1 in Hrun.
    unfold call_create_iter in Hrun.
    erewrite bind_ok in Hrun by apply call_eq. simpl in Hrun.
    apply IH with (l0 := l0 ++ [fits.*1]) in Hrun; [|simpl; by rewrite Hl3].
    destruct Hrun as (evs & kept & Hruns & Hlog & H_ & Hl & Hk & Hu).
    simpl in *. eexists _, (fits.*1 :: kept). split.
    { apply run_next_plain; [done..|]. rewrite Hk3 in Hruns. exact Hruns. }
    rewrite H_, Hl, Hk, Hu, Hlog, Hlog3, Hlog2, H_3, Hk3, Hu3, <-!app_assoc.
    done.
Qed.

(** The anatomy of [fit_predict] once its assertions have passed: the
    optional read of the validation data, the first iterator, the level
    loop, and, when the loop returns, the blender and the bookkeeping. *)
Lemma fit_predict_checked_run d cv vd vf st lv r st' :
  _levels (self st) = Some lv →
  fit_predict_checked d cv vd vf st = (r, st') →
  ∃ pre vds it evs rl kept,
    (pre = [] ∨ ∃ dv, pre = [EvRead true dv]) ∧
    it = create_validation_iterator d vds None cv ∧
    levels_run (length lv) (skip_conn (self st)) 1 lv it PyNone None evs rl kept ∧
    skip_conn (self st') = skip_conn (self st) ∧
    match rl with
    | inl e =>
        r = inl e ∧
        log st' = log st ++ pre ++ [EvCreateIter d vds cv it] ++ evs ∧
        levels (self st') = Some kept ∧ _levels (self st') = Some lv ∧
        used_features st' = used_features st
    | inr (lp, pp) =>
        ∃ blended last_pipes,
          r = inr blended ∧
          (∃ w, blender_fit_predict lp pp w = (blended, last_pipes, world st')) ∧
          log st' = log st ++ pre ++ [EvCreateIter d vds cv it] ++ evs ++
            [EvBlenderFit lp pp blended last_pipes;
             EvUpdUsedFeatures
               (elements (list_to_set (used_features st) ∖
                          used_feats_of (world st') (kept ++ [last_pipes])))] ∧
          levels (self st') = Some (kept ++ [last_pipes]) ∧
          _levels (self st') = None ∧
          used_features st' =
            filter (λ f, f ∉ elements (list_to_set (used_features st) ∖
                          used_feats_of (world st') (kept ++ [last_pipes])))
                   (used_features st)
    end.
Proof.
  intros Hlv Hrun. unfold fit_predict_checked in Hrun.
  apply bind_inv in Hrun as [(e & Hread & _)|(vds & st1 & Hread & Hrun)].
  { destruct vd; [|discriminate]. unfold call_read in Hread.
    erewrite bind_ok in Hread by apply call_eq. discriminate. }
  assert (∃ pre, (pre = [] ∨ ∃ dv, pre = [EvRead true dv]) ∧
            self st1 = self st ∧ used_features st1 = used_features st ∧
            log st1 = log st ++ pre) as (pre & Hpre & Hs1 & Hu1 & Hlog1).
  { destruct vd as [v|].
    - unfold call_read in Hread. erewrite bind_ok in Hread by apply call_eq.
      injection Hread as <- <-. eexists [_]. split_and!; [right; eauto|done..].
    - injection Hread as <- <-. exists []. rewrite app_nil_r. split_and!; by eauto. }
  clear Hread. unfold call_create_iter in Hrun.
  erewrite bind_ok in Hrun by apply call_eq. simpl in Hrun.
  set (it := create_validation_iterator d vds None cv) in *.
  unfold set_levels, modify in Hrun. unfold bind at 1 in Hrun.
  unfold get__levels in Hrun. unfold bind at 1 in Hrun. simpl in Hrun.
  rewrite Hs1, Hlv in Hrun.
  apply bind_inv in Hrun as [(e & Hloop & ->)|([lp pp] & st4 & Hloop & Hrun)];
    (apply fit_levels_run with (l0 := []) in Hloop; [|done]);
    destruct Hloop as (evs & kept & Hruns & Hlog4 & H_4 & Hl4 & Hk4 & Hu4);
    simpl in *; rewrite Hs1 in *.
  { exists pre, vds, it, evs, (inl e), kept.
    rewrite Hlog4, Hlog1, <-!app_assoc. split_and!; try done; congruence. }
  unfold call_blender_fit in Hrun. erewrite bind_ok in Hrun by apply call_eq.
  cbn beta iota in Hrun.
  destruct (blender_fit_predict lp pp (world st4)) as [[blended last_pipes] w5] eqn:Hb.
  cbn [fst snd] in Hrun.
  erewrite bind_ok in Hrun by (by apply levels_append_eq).
  unfold gets, collect_used_feats, get_levels, upd_used_features, set__levels,
    modify, ret, bind in Hrun. simpl in Hrun.
  injection Hrun as <- <-. simpl.
  exists pre, vds, it, evs, (inr (lp, pp)), kept.
  split_and!; [done..|].
  exists blended, last_pipes.
  rewrite Hu4, Hu1, Hlog4, Hlog1, list_to_set_elements_L, <-!app_assoc. simpl.
  split_and!; [done|by eauto|by rewrite <-?app_assoc..].
Qed.

(** ** Splitting a record of calls at a marked call *)

Lemma split_after_clean (P : event → bool) pre rest e1 x e2 :
  Forall (λ e, P e = false) pre → P x = true →
  pre ++ rest = e1 ++ x :: e2 →
  ∃ e1', e1 = pre ++ e1' ∧ rest = e1' ++ x :: e2.
Proof.
  intros Hpre Hx. revert e1.
  induction Hpre as [|a pre Ha _ IH]; intros e1 Heq; simpl in *.
  - by exists e1.
  - destruct e1 as [|b e1]; simplify_eq/=; [congruence|].
    destruct (IH e1) as (e1' & -> & ->); [done|]. by exists e1'.
Qed.

Lemma split_before_clean (P : event → bool) l tail e1 x e2 :
  Forall (λ e, P e = false) tail → P x = true →
  l ++ tail = e1 ++ x :: e2 →
  ∃ e2', e2 = e2' ++ tail ∧ l = e1 ++ x :: e2'.
Proof.
  intros Htail Hx. revert l.
  induction e1 as [|b e1 IH]; intros l Heq; simpl in *.
  - destruct l as [|a l]; simplify_eq/=.
    + apply Forall_cons in Htail as [Hx' _]. congruence.
    + by exists l.
  - destruct l as [|a l]; simplify_eq/=.
    + apply Forall_cons in Htail as [_ Htail].
      apply Forall_app in Htail as [_ Htail].
      apply Forall_cons in Htail as [Hx' _]. congruence.
    + destruct (IH l) as (e2' & -> & ->); [done|]. by exists e2'.
Qed.

Lemma clean_no_split (P : event → bool) l e1 x e2 :
  Forall (λ e, P e = false) l → P x = true → l ≠ e1 ++ x :: e2.
Proof.
  intros Hl Hx ->. apply Forall_app in Hl as [_ Hl].
  apply Forall_cons in Hl as [Hx' _]. congruence.
Qed.

Lemma fit_events_clean (P : event → bool) it fits :
  (∀ p d, P (EvPipeFit p it d) = false) → P (EvTimeLimitExceeded false) = false →
  Forall (λ e, P e = false) (fit_events it fits).
Proof.
  intros Hfit Hfalse. unfold fit_events.
  induction fits as [|[p d] fits IH]; simpl; [constructor|].
  repeat constructor; [apply Hfit|done|exact IH].
Qed.

Lemma foldl_fit_events it fits (acc : list (Pipe * Dataset)) :
  foldl (fit_step (CvIter:=CvIter)) acc (fit_events it fits) = acc ++ fits.
Proof.
  revert acc. unfold fit_events.
  induction fits as [|[p d] fits IH]; intros acc; simpl.
  - by rewrite app_nil_r.
  - rewrite IH, <-app_assoc. done.
Qed.

Lemma current_fits_app evs1 evs2 :
  current_fits (evs1 ++ evs2) = foldl fit_step (current_fits evs1) evs2.
Proof. unfold current_fits. apply foldl_app. Qed.

(** ** The time limit *)

Lemma levels_run_time_cut N skip n lvls it lp pp evs r kept :
  levels_run N skip n lvls it lp pp evs r kept →
  ∀ e1 e2, evs = e1 ++ EvTimeLimitExceeded true :: e2 →
    e2 = [] ∧
    r = inr (PyList (foldl fit_step [] e1).*2, Some (foldl fit_step [] e1).*1) ∧
    foldl fit_step [] e1 ≠ [].
Proof.
  assert (Hclean : ∀ it fits,
    Forall (λ e, is_time_cut e = false) (fit_events (CvIter:=CvIter) it fits))
    by (intros; by apply fit_events_clean).
  induction 1 as [n it lp pp|n level lvls it lp pp fits p d rest Hlevel
    |n level lvls it lp pp fits out Hfits Hout
    |n level lvls it lp pp fits e Hfits Hn Hskip Hfrom
    |n level lvls it lp pp fits c evs r kept Hfits Hn Hskip Hfrom next it' Hrun IH
    |n level lvls it lp pp fits evs r kept Hfits Hn Hskip next it' Hrun IH];
    intros e1 e2 Heq.
  - by destruct e1.
  - change ([EvPipeFit p it d; EvTimeLimitExceeded true] : list event)
      with ([EvPipeFit p it d] ++ [EvTimeLimitExceeded true] : list event) in Heq.
    rewrite app_assoc in Heq.
    apply (split_after_clean is_time_cut) in Heq as (e1' & -> & Heq);
      [|apply Forall_app; split; [apply Hclean|by repeat constructor]|done].
    destruct e1' as [|? [|? ?]]; simplify_eq/=.
    rewrite app_nil_r, foldl_app, foldl_fit_events. simpl.
    rewrite !fmap_app. simpl. split_and!; [done..|]. by destruct fits.
  - exfalso. revert Heq. apply (clean_no_split is_time_cut); [|done].
    apply Forall_app; split; [apply Hclean|]. destruct out; by repeat constructor.
  - exfalso. revert Heq. apply (clean_no_split is_time_cut); [|done].
    apply Forall_app; split; [apply Hclean|by repeat constructor].
  - rewrite app_assoc in Heq.
    apply (split_after_clean is_time_cut) in Heq as (e1' & -> & Heq);
      [|apply Forall_app; split; [apply Hclean|by repeat constructor]|done].
    destruct (IH _ _ Heq) as (-> & -> & Hne).
    rewrite !foldl_app, foldl_fit_events. done.
  - rewrite app_assoc in Heq.
    apply (split_after_clean is_time_cut) in Heq as (e1' & -> & Heq);
      [|apply Forall_app; split; [apply Hclean|by repeat constructor]|done].
    destruct (IH _ _ Heq) as (-> & -> & Hne).
    rewrite !foldl_app, foldl_fit_events. done.
Qed.

Lemma prelude_clean (P : event → bool) (d : Dataset) pre vds cv it :
  P EvTimerStart = false → (∀ d, P (EvFitRead d) = false) →
  (∀ b d, P (EvRead b d) = false) → (∀ t v c i, P (EvCreateIter t v c i) = false) →
  (pre = [] ∨ ∃ dv, pre = [EvRead true dv]) →
  Forall (λ e, P e = false)
    ([EvTimerStart; EvFitRead d] ++ pre ++ [EvCreateIter d vds cv it]).
Proof.
  intros ? ? ? ? [->|[dv ->]]; simpl; by repeat constructor.
Qed.

Lemma current_fits_prelude (d : Dataset) pre vds cv it evs :
  (pre = [] ∨ ∃ dv, pre = [EvRead true dv]) →
  current_fits (([EvTimerStart; EvFitRead d] ++ pre ++ [EvCreateIter d vds cv it]) ++ evs)
  = foldl fit_step [] evs.
Proof. intros [->|[dv ->]]; by rewrite current_fits_app. Qed.

(** C4: when the timer reports the global limit exceeded after a
    pipeline's fit, [fit_predict] makes exactly two more calls, the
    blender's [fit_predict] and the reader's [upd_used_features]: no
    further pipeline of the level is started and no further level is
    processed.  It does not raise: it returns the blender's prediction,
    which the blender computed from the predictions of the pipelines of
    the current level fitted up to the cut, in order. *)
Theorem time_limit_stops_training td roles tf cv vd vf st r st' e1 e2 :
  fit_predict td roles tf cv vd vf st = (r, st') →
  log st' = log st ++ e1 ++ EvTimeLimitExceeded true :: e2 →
  ∃ blended last_pipes remove,
    r = inr blended ∧
    e2 = [EvBlenderFit (PyList (current_fits e1).*2) (Some (current_fits e1).*1)
            blended last_pipes;
          EvUpdUsedFeatures remove] ∧
    current_fits e1 ≠ [] ∧
    ∃ w, blender_fit_predict (PyList (current_fits e1).*2)
           (Some (current_fits e1).*1) w = (blended, last_pipes, world st').
Proof.
  intros Hrun Hlog. rewrite fit_predict_eq in Hrun.
  destruct (read_training td tf roles st) as [d st2] eqn:Hread.
  assert (self st2 = self st ∧ log st2 = log st ++ [EvTimerStart; EvFitRead d])
    as [Hs2 Hl2] by (by inversion Hread).
  assert (Hshort : log st' = log st2 → False).
  { intros Heq. rewrite Heq, Hl2 in Hlog. apply app_inv_head in Hlog.
    revert Hlog. apply (clean_no_split is_time_cut); by repeat constructor. }
  destruct (_levels (self st)) as [lv|] eqn:Hlv;
    [|exfalso; apply Hshort; by injection Hrun as _ <-].
  destruct (_ || _); [|exfalso; apply Hshort; by injection Hrun as _ <-].
  destruct (_ || _); [|exfalso; apply Hshort; by injection Hrun as _ <-].
  apply fit_predict_checked_run with (lv := lv) in Hrun; [|by rewrite Hs2].
  destruct Hrun as (pre & vds & it & evs & rl & kept & Hpre & Hit & Hruns & _ & Hcase).
  pose proof (prelude_clean is_time_cut d pre vds cv it eq_refl
                (λ _, eq_refl) (λ _ _, eq_refl) (λ _ _ _ _, eq_refl) Hpre) as Hclean.
  destruct rl as [e|[lp pp]].
  - destruct Hcase as (_ & Hlog' & _). exfalso.
    rewrite Hlog', Hl2, <-!app_assoc in Hlog. apply app_inv_head in Hlog.
    rewrite !app_assoc, <-(app_assoc _ pre) in Hlog.
    apply (split_after_clean is_time_cut) in Hlog as (e1' & _ & Hevs); [|done..].
    by destruct (levels_run_time_cut _ _ _ _ _ _ _ _ _ _ Hruns _ _ Hevs) as (_ & ? & _).
  - destruct Hcase as (blended & last_pipes & -> & Hw & Hlog' & _).
    rewrite Hlog', Hl2, <-!app_assoc in Hlog. apply app_inv_head in Hlog.
    rewrite !app_assoc, <-(app_assoc _ pre), <-(app_assoc _ evs) in Hlog.
    apply (split_after_clean is_time_cut) in Hlog as (e1' & -> & Hevs); [|done..].
    apply (split_before_clean is_time_cut) in Hevs as (e2' & -> & Hevs);
      [|by repeat constructor|done].
    destruct (levels_run_time_cut _ _ _ _ _ _ _ _ _ _ Hruns _ _ Hevs)
      as (-> & [= -> ->] & Hne).
    rewrite current_fits_prelude by done.
    eexists blended, last_pipes, _. split_and!; done.
Qed.

(** ** The loops of [predict], run by run *)

Lemma predict_level_run level (d : Dataset) (acc : list Dataset) st :
  ∃ preds st',
    predict_level level d acc st = (inr (acc ++ preds.*2), st') ∧
    preds.*1 = level ∧
    self st' = self st ∧ used_features st' = used_features st ∧
    log st' = log st ++ predict_events d preds.
Proof.
  revert acc st. induction level as [|p level IH]; intros acc st; simpl.
  - exists [], st. by rewrite !app_nil_r.
  - unfold call_pipe_predict. erewrite bind_ok by apply call_eq.
    set (pred := (pipe_predict p d (world st)).1).
    set (st1 := emit _ _).
    destruct (IH (acc ++ [pred]) st1) as (preds & st' & Hrun & Hp & Hs & Hu & Hl).
    exists ((p, pred) :: preds), st'. rewrite Hrun, Hs, Hu, Hl.
    subst st1 level. simpl. by rewrite <-!app_assoc.
Qed.

Lemma predict_levels_run N n lvls (d : Dataset) (b : pyval Dataset) st r st' :
  predict_levels N n lvls d b st = (r, st') →
  ∃ evs,
    predict_run N (skip_conn (self st)) n lvls d b evs r ∧
    log st' = log st ++ evs ∧
    self st' = self st ∧ used_features st' = used_features st.
Proof.
  revert n d b st r st'.
  induction lvls as [|level lvls IH]; intros n d b st r st' Hrun; simpl in Hrun.
  { injection Hrun as <- <-. exists []. rewrite app_nil_r.
    split_and!; [constructor|done..]. }
  destruct (predict_level_run level d [] st) as (preds & st1 & Hlevel & Hp & Hs1 & Hu1 & Hl1).
  rewrite (bind_ok _ _ _ _ _ Hlevel) in Hrun. simpl in Hrun. subst level.
  destruct (decide (n = N)) as [Hn|Hn].
  - rewrite bool_decide_eq_true_2 in Hrun by done. simpl in Hrun.
    unfold call_blender_predict in Hrun. erewrite bind_ok in Hrun by apply call_eq.
    apply IH in Hrun as (evs & Hruns & Hl & Hs & Hu). simpl in *.
    eexists. split; [apply prun_blend; [done..|]; rewrite <-Hs1; exact Hruns|].
    rewrite Hl, Hl1, Hs, Hu, <-!app_assoc. done.
  - rewrite bool_decide_eq_false_2 in Hrun by done. simpl in Hrun.
    unfold gets at 1 in Hrun. unfold bind at 1 in Hrun. rewrite Hs1 in Hrun.
    destruct (skip_conn (self st)) eqn:Hskip.
    + apply bind_inv in Hrun as [(e & Hconv & ->)|(next & st3 & Hconv & Hrun)].
      * apply bind_inv in Hconv as [(e' & Hconv & [= ->])|(c & st2 & _ & Hret)];
          [|discriminate].
        rewrite convert_eq in Hconv.
        destruct (from_dataset _ _) as [err|c] eqn:Hfrom; [|discriminate].
        injection Hconv as <- <-. simpl.
        eexists. split; [by apply prun_conversion_error|].
        rewrite Hl1, <-!app_assoc. done.
      * apply bind_inv in Hconv as [(e' & _ & [=])|(c & st2 & Hconv & Hret)].
        injection Hret as <- <-.
        rewrite convert_eq in Hconv.
        destruct (from_dataset _ _) as [err|c'] eqn:Hfrom; [discriminate|].
        injection Hconv as -> <-.
        apply IH in Hrun as (evs & Hruns & Hl & Hs & Hu). simpl in *.
        eexists. split.
        { apply prun_next_skip; [done..|]. rewrite Hs1, Hskip in Hruns. exact Hruns. }
        rewrite Hl, Hl1, Hs, Hu, <-!app_assoc. done.
    + unfold ret at 1 in Hrun. unfold bind at 1 in Hrun.
      apply IH in Hrun as (evs & Hruns & Hl & Hs & Hu).
      eexists. split.
      { apply prun_next_plain; [done..|]. rewrite Hs1, Hskip in Hruns. exact Hruns. }
      rewrite Hl, Hl1, Hs, Hu, <-!app_assoc. done.
Qed.

(** The anatomy of [predict]. *)
Lemma predict_run_of data fn st r st' :
  predict data fn st = (r, st') →
  ∃ d,
    self st' = self st ∧ used_features st' = used_features st ∧
    match levels (self st) with
    | None => r = inl (AttributeError (msg_attr "levels")) ∧
              log st' = log st ++ [EvRead false d]
    | Some lv => ∃ evs,
        predict_run (length lv) (skip_conn (self st)) 1 lv d PyNone evs r ∧
        log st' = log st ++ [EvRead false d] ++ evs
    end.
Proof.
  unfold predict, call_read. intros Hrun.
  erewrite bind_ok in Hrun by apply call_eq.
  set (d := (reader_read data fn false (world st)).1) in *.
  exists d. unfold get_levels in Hrun. unfold bind at 1 in Hrun. simpl in Hrun.
  destruct (levels (self st)) as [lv|] eqn:Hlv.
  - apply predict_levels_run in Hrun as (evs & Hruns & Hl & Hs & Hu). simpl in *.
    split_and!; [done..|]. exists evs. by rewrite Hl, <-app_assoc.
  - by injection Hrun as <- <-.
Qed.

(** ** Conversion failures under skip connections *)

Lemma predict_events_clean (P : event → bool) (d : Dataset)
    (preds : list (Pipe * Dataset)) :
  (∀ p d pred, P (EvPipePredict p d pred) = false) →
  Forall (λ e, P e = false) (predict_events d preds).
Proof.
  intros HP. unfold predict_events. apply Forall_fmap, Forall_forall.
  intros [p pred] _. apply HP.
Qed.

Lemma levels_run_conversion_failure N skip n lvls it lp pp evs r kept :
  levels_run N skip n lvls it lp pp evs r kept →
  ∀ e1 x e2, evs = e1 ++ x :: e2 → is_conversion_failure x = true →
    e2 = [] ∧ r = inl (TypeError msg_skip_conn) ∧ skip = true.
Proof.
  assert (Hclean : ∀ it fits,
    Forall (λ e, is_conversion_failure e = false) (fit_events (CvIter:=CvIter) it fits))
    by (intros; by apply fit_events_clean).
  induction 1 as [n it lp pp|n level lvls it lp pp fits p d rest Hlevel
    |n level lvls it lp pp fits out Hfits Hout
    |n level lvls it lp pp fits e Hfits Hn Hskip Hfrom
    |n level lvls it lp pp fits c evs r kept Hfits Hn Hskip Hfrom next it' Hrun IH
    |n level lvls it lp pp fits evs r kept Hfits Hn Hskip next it' Hrun IH];
    intros e1 x e2 Heq Hx.
  - by destruct e1.
  - exfalso. revert Heq. apply (clean_no_split is_conversion_failure); [|done].
    apply Forall_app; split; [apply Hclean|by repeat constructor].
  - exfalso. revert Heq. apply (clean_no_split is_conversion_failure); [|done].
    apply Forall_app; split; [apply Hclean|by repeat constructor].
  - change ([EvChildOutOfTime false;
             EvFromDataset (get_validation_data it) (concatenate fits.*2) (inl e)]
            : list event)
      with ([EvChildOutOfTime false] ++
            [EvFromDataset (get_validation_data it) (concatenate fits.*2) (inl e)]
            : list event) in Heq.
    rewrite app_assoc in Heq.
    apply (split_after_clean is_conversion_failure) in Heq as (e1' & -> & Heq);
      [|apply Forall_app; split; [apply Hclean|by repeat constructor]|done].
    destruct e1' as [|? [|? ?]]; simplify_eq/=. by rewrite Hx.
  - rewrite app_assoc in Heq.
    apply (split_after_clean is_conversion_failure) in Heq as (e1' & -> & Heq);
      [|apply Forall_app; split; [apply Hclean|by repeat constructor]|done].
    by apply (IH _ _ _ Heq).
  - rewrite app_assoc in Heq.
    apply (split_after_clean is_conversion_failure) in Heq as (e1' & -> & Heq);
      [|apply Forall_app; split; [apply Hclean|by repeat constructor]|done].
    by apply (IH _ _ _ Heq).
Qed.

Lemma predict_run_conversion_failure N skip n lvls (d : Dataset) b evs r :
  predict_run N skip n lvls d b evs r →
  ∀ e1 x e2, evs = e1 ++ x :: e2 → is_conversion_failure x = true →
    e2 = [] ∧ r = inl (TypeError msg_skip_conn) ∧ skip = true.
Proof.
  assert (Hclean : ∀ (d : Dataset) (preds : list (Pipe * Dataset)),
    Forall (λ e, is_conversion_failure e = false)
      (predict_events (ValidIter:=ValidIter) (CvIter:=CvIter) d preds))
    by (intros; by apply predict_events_clean).
  induction 1 as [n d b|n level lvls d b preds out evs r Hp Hn Hrun IH
    |n level lvls d b preds e Hp Hn Hskip Hfrom
    |n level lvls d b preds c evs r Hp Hn Hskip Hfrom Hrun IH
    |n level lvls d b preds evs r Hp Hn Hskip Hrun IH];
    intros e1 x e2 Heq Hx.
  - by destruct e1.
  - rewrite app_assoc in Heq.
    apply (split_after_clean is_conversion_failure) in Heq as (e1' & -> & Heq);
      [|apply Forall_app; split; [apply Hclean|by repeat constructor]|done].
    by apply (IH _ _ _ Heq).
  - apply (split_after_clean is_conversion_failure) in Heq as (e1' & -> & Heq);
      [|apply Hclean|done].
    destruct e1' as [|? [|? ?]]; simplify_eq/=. by rewrite Hx.
  - rewrite app_assoc in Heq.
    apply (split_after_clean is_conversion_failure) in Heq as (e1' & -> & Heq);
      [|apply Forall_app; split; [apply Hclean|by repeat constructor]|done].
    by apply (IH _ _ _ Heq).
  - apply (split_after_clean is_conversion_failure) in Heq as (e1' & -> & Heq);
      [|apply Hclean|done].
    by apply (IH _ _ _ Heq).
Qed.

(** C5: a type error of [from_dataset] under skip connections is fatal.
    In [fit_predict] and in [predict] alike, when the conversion of the
    concatenated predictions fails with a type error, the method raises
    [TypeError] with the message telling the caller to set
    [skip_conn=False], and the failed conversion is the last call it
    makes: no validation iterator is built for the next level (no next
    pipeline predicts), and there is no fallback to the behaviour
    without skip connections.  The conversion is attempted only with
    [skip_conn] on. *)
Theorem conversion_failure_is_fatal x :
  is_conversion_failure x = true →
  (∀ td roles tf cv vd vf st r st' e1 e2,
     fit_predict td roles tf cv vd vf st = (r, st') →
     log st' = log st ++ e1 ++ x :: e2 →
     r = inl (TypeError msg_skip_conn) ∧ e2 = [] ∧ skip_conn (self st) = true) ∧
  (∀ data fn st r st' e1 e2,
     predict data fn st = (r, st') →
     log st' = log st ++ e1 ++ x :: e2 →
     r = inl (TypeError msg_skip_conn) ∧ e2 = [] ∧ skip_conn (self st) = true).
Proof.
  intros Hx. split.
  - intros td roles tf cv vd vf st r st' e1 e2 Hrun Hlog.
    rewrite fit_predict_eq in Hrun.
    destruct (read_training td tf roles st) as [d st2] eqn:Hread.
    assert (self st2 = self st ∧ log st2 = log st ++ [EvTimerStart; EvFitRead d])
      as [Hs2 Hl2] by (by inversion Hread).
    assert (Hshort : log st' = log st2 → False).
    { intros Heq. rewrite Heq, Hl2 in Hlog. apply app_inv_head in Hlog.
      revert Hlog. apply (clean_no_split is_conversion_failure); by repeat constructor. }
    destruct (_levels (self st)) as [lv|] eqn:Hlv;
      [|exfalso; apply Hshort; by injection Hrun as _ <-].
    destruct (_ || _); [|exfalso; apply Hshort; by injection Hrun as _ <-].
    destruct (_ || _); [|exfalso; apply Hshort; by injection Hrun as _ <-].
    apply fit_predict_checked_run with (lv := lv) in Hrun; [|by rewrite Hs2].
    destruct Hrun as (pre & vds & it & evs & rl & kept & Hpre & Hit & Hruns & _ & Hcase).
    pose proof (prelude_clean is_conversion_failure d pre vds cv it eq_refl
                  (λ _, eq_refl) (λ _ _, eq_refl) (λ _ _ _ _, eq_refl) Hpre) as Hclean.
    rewrite Hs2 in Hruns.
    destruct rl as [e|[lp pp]].
    + destruct Hcase as (-> & Hlog' & _).
      rewrite Hlog', Hl2, <-!app_assoc in Hlog. apply app_inv_head in Hlog.
      rewrite !app_assoc, <-(app_assoc _ pre) in Hlog.
      apply (split_after_clean is_conversion_failure) in Hlog as (e1' & _ & Hevs);
        [|done..].
      destruct (levels_run_conversion_failure _ _ _ _ _ _ _ _ _ _ Hruns _ _ _ Hevs Hx)
        as (-> & [= ->] & ->). done.
    + destruct Hcase as (blended & last_pipes & -> & Hw & Hlog' & _). exfalso.
      rewrite Hlog', Hl2, <-!app_assoc in Hlog. apply app_inv_head in Hlog.
      rewrite !app_assoc, <-(app_assoc _ pre), <-(app_assoc _ evs) in Hlog.
      apply (split_after_clean is_conversion_failure) in Hlog as (e1' & -> & Hevs);
        [|done..].
      apply (split_before_clean is_conversion_failure) in Hevs as (e2' & -> & Hevs);
        [|by repeat constructor|done].
      by destruct (levels_run_conversion_failure _ _ _ _ _ _ _ _ _ _ Hruns _ _ _ Hevs Hx)
        as (_ & ? & _).
  - intros data fn st r st' e1 e2 Hrun Hlog.
    apply predict_run_of in Hrun as (d & _ & _ & Hcase).
    destruct (levels (self st)) as [lv|].
    + destruct Hcase as (evs & Hruns & Hlog').
      rewrite Hlog' in Hlog. apply app_inv_head in Hlog.
      apply (split_after_clean is_conversion_failure) in Hlog as (e1' & _ & Hevs);
        [|by repeat constructor|done].
      by destruct (predict_run_conversion_failure _ _ _ _ _ _ _ _ Hruns _ _ _ Hevs Hx)
        as (-> & -> & ->).
    + destruct Hcase as [_ Hlog']. exfalso.
      rewrite Hlog' in Hlog. apply app_inv_head in Hlog.
      revert Hlog. apply (clean_no_split is_conversion_failure); by repeat constructor.
Qed.

(** ** What the blender is given *)

Lemma levels_run_no_blender N skip n lvls it lp pp evs r kept :
  levels_run N skip n lvls it lp pp evs r kept →
  Forall (λ e, is_blender_call e = false) evs.
Proof.
  assert (Hclean : ∀ it fits,
    Forall (λ e, is_blender_call e = false) (fit_events (CvIter:=CvIter) it fits))
    by (intros; by apply fit_events_clean).
  induction 1; repeat (apply Forall_app; split);
    try apply Hclean; try done; by repeat constructor.
Qed.

Lemma levels_run_result N skip n lvls it lp pp evs r kept :
  levels_run N skip n lvls it lp pp evs r kept →
  ∀ lp' pp', r = inr (lp', pp') → n + length lvls = N + 1 → lvls ≠ [] →
    lp' = PyList (foldl fit_step [] evs).*2 ∧
    pp' = Some (foldl fit_step [] evs).*1.
Proof.
  induction 1 as [n it lp pp|n level lvls it lp pp fits p d rest Hlevel
    |n level lvls it lp pp fits out Hfits Hout
    |n level lvls it lp pp fits e Hfits Hn Hskip Hfrom
    |n level lvls it lp pp fits c evs r kept Hfits Hn Hskip Hfrom next it' Hrun IH
    |n level lvls it lp pp fits evs r kept Hfits Hn Hskip next it' Hrun IH];
    intros lp' pp' Hr Hlen Hne; simplify_eq/=.
  - rewrite foldl_app, foldl_fit_events. simpl. by rewrite !fmap_app.
  - by rewrite foldl_app, foldl_fit_events.
  - rewrite !foldl_app, foldl_fit_events. simpl.
    apply IH; [done|lia|]. intros ->. simpl in *. lia.
  - rewrite !foldl_app, foldl_fit_events. simpl.
    apply IH; [done|lia|]. intros ->. simpl in *. lia.
Qed.

Lemma predict_run_no_blender_before N skip n lvls (d : Dataset) b evs r :
  predict_run N skip n lvls d b evs r →
  ∀ out, r = inr out → n + length lvls = N + 1 → lvls ≠ [] →
    ∃ e0 d' preds blended,
      evs = e0 ++ predict_events d' preds ++
              [EvBlenderPredict (PyList preds.*2) blended] ∧
      Forall (λ e, is_blender_call e = false) (e0 ++ predict_events d' preds) ∧
      last lvls = Some preds.*1 ∧ out = PyDataset blended.
Proof.
  assert (Hclean : ∀ (d : Dataset) (preds : list (Pipe * Dataset)),
    Forall (λ e, is_blender_call e = false)
      (predict_events (ValidIter:=ValidIter) (CvIter:=CvIter) d preds))
    by (intros; by apply predict_events_clean).
  induction 1 as [n d b|n level lvls d b preds blended evs r Hp Hn Hrun IH
    |n level lvls d b preds e Hp Hn Hskip Hfrom
    |n level lvls d b preds c evs r Hp Hn Hskip Hfrom Hrun IH
    |n level lvls d b preds evs r Hp Hn Hskip Hrun IH];
    intros out Hr Hlen Hne; simplify_eq/=.
  - destruct lvls as [|? ?]; [|simpl in *; lia].
    inversion Hrun; simplify_eq. exists [], d, preds, blended.
    simpl. split_and!; [done|apply Hclean|done..].
  - destruct (IH out eq_refl) as (e0 & d' & preds' & blended & -> & Hcl & Hlast & ->);
      [lia|intros ->; simpl in *; lia|].
    eexists (predict_events d preds ++ [_] ++ e0), d', preds', blended.
    rewrite <-!app_assoc. split_and!; [done| |by destruct lvls|done].
    apply Forall_app; split; [apply Hclean|]. apply Forall_app; split; [|done].
    by repeat constructor.
  - destruct (IH out eq_refl) as (e0 & d' & preds' & blended & -> & Hcl & Hlast & ->);
      [lia|intros ->; simpl in *; lia|].
    eexists (predict_events d preds ++ e0), d', preds', blended.
    rewrite <-!app_assoc. split_and!; [done| |by destruct lvls|done].
    apply Forall_app; split; [apply Hclean|done].
Qed.

(** C1, as the code has it: the blender is given the list of the
    per-pipeline prediction datasets of the last processed level, in
    pipeline order, not their concatenation (only the predictions of a
    level that is followed by another are concatenated).  In a
    [fit_predict] that returns, the only call on the blender is its
    [fit_predict], on that list and on the pipelines fitted against the
    current iterator; in a [predict] that returns, the only call on the
    blender is its [predict], on the list of the predictions of the
    pipelines of the last retained level. *)
Theorem blender_receives_prediction_list lf lp :
  lf ≠ [] → lp ≠ [] →
  (∀ td roles tf cv vd vf st blended st',
     _levels (self st) = Some lf →
     fit_predict td roles tf cv vd vf st = (inr blended, st') →
     ∃ e1 last_pipes remove,
       log st' = log st ++ e1 ++
         [EvBlenderFit (PyList (current_fits e1).*2) (Some (current_fits e1).*1)
            blended last_pipes;
          EvUpdUsedFeatures remove] ∧
       Forall (λ e, is_blender_call e = false) e1) ∧
  (∀ data fn st out st',
     levels (self st) = Some lp →
     predict data fn st = (inr out, st') →
     ∃ e1 d preds blended,
       log st' = log st ++ e1 ++ predict_events d preds ++
         [EvBlenderPredict (PyList preds.*2) blended] ∧
       Forall (λ e, is_blender_call e = false) (e1 ++ predict_events d preds) ∧
       last lp = Some preds.*1 ∧ out = PyDataset blended).
Proof.
  intros Hlf Hlp. split.
  - intros td roles tf cv vd vf st blended st' Hlv Hrun.
    rewrite fit_predict_eq in Hrun.
    destruct (read_training td tf roles st) as [d st2] eqn:Hread.
    assert (self st2 = self st ∧ log st2 = log st ++ [EvTimerStart; EvFitRead d])
      as [Hs2 Hl2] by (by inversion Hread).
    rewrite Hlv in Hrun.
    destruct (_ || _); [|discriminate]. destruct (_ || _); [|discriminate].
    apply fit_predict_checked_run with (lv := lf) in Hrun; [|by rewrite Hs2].
    destruct Hrun as (pre & vds & it & evs & rl & kept & Hpre & Hit & Hruns & _ & Hcase).
    destruct rl as [e|[lp' pp']]; [by destruct Hcase|].
    destruct Hcase as (b & last_pipes & [= <-] & _ & Hlog & _).
    destruct (levels_run_result _ _ _ _ _ _ _ _ _ _ Hruns lp' pp' eq_refl)
      as [-> ->]; [lia|done|].
    exists (([EvTimerStart; EvFitRead d] ++ pre ++ [EvCreateIter d vds cv it]) ++ evs).
    eexists last_pipes, _.
    rewrite current_fits_prelude by done. split.
    + rewrite Hlog, Hl2, <-!app_assoc. done.
    + apply Forall_app; split; [|by eapply levels_run_no_blender].
      by apply (prelude_clean is_blender_call).
  - intros data fn st out st' Hlv Hrun.
    apply predict_run_of in Hrun as (d & _ & _ & Hcase). rewrite Hlv in Hcase.
    destruct Hcase as (evs & Hruns & Hlog).
    destruct (predict_run_no_blender_before _ _ _ _ _ _ _ _ Hruns out eq_refl)
      as (e0 & d' & preds & blended & -> & Hcl & Hlast & ->); [lia|done|].
    exists ([EvRead false d] ++ e0), d', preds, blended.
    rewrite Hlog, <-!app_assoc. split_and!; [done| |done..].
    by constructor.
Qed.

(** ** The retained levels *)

Lemma length_removelast_S {A} (l : list A) :
  l ≠ [] → S (length (removelast l)) = length l.
Proof.
  induction l as [|a [|b l] IH]; [done|done|]. intros _.
  change (S (S (length (removelast (b :: l)))) = S (length (b :: l))).
  f_equal. by apply IH.
Qed.

Lemma levels_run_no_timeout N skip n lvls it lp pp evs r kept :
  levels_run N skip n lvls it lp pp evs r kept →
  ∀ lp' pp', r = inr (lp', pp') →
    Forall (λ e, is_timeout e = false) evs →
    n + length lvls = N + 1 → lvls ≠ [] →
    kept = removelast lvls ∧ pp' = last lvls.
Proof.
  induction 1 as [n it lp pp|n level lvls it lp pp fits p d rest Hlevel
    |n level lvls it lp pp fits out Hfits Hout
    |n level lvls it lp pp fits e Hfits Hn Hskip Hfrom
    |n level lvls it lp pp fits c evs r kept Hfits Hn Hskip Hfrom next it' Hrun IH
    |n level lvls it lp pp fits evs r kept Hfits Hn Hskip next it' Hrun IH];
    intros lp' pp' Hr Hquiet Hlen Hne; simplify_eq/=.
  - apply Forall_app in Hquiet as [_ Hquiet].
    apply Forall_cons in Hquiet as [_ Hquiet].
    by apply Forall_cons in Hquiet as [? _].
  - apply Forall_app in Hquiet as [_ Hquiet].
    apply Forall_cons in Hquiet as [Hq _].
    destruct Hout as [->| ->]; [done|].
    destruct lvls; [done|simpl in *; lia].
  - apply Forall_app in Hquiet as [_ Hquiet].
    do 3 apply Forall_cons in Hquiet as [_ Hquiet].
    destruct (IH lp' pp' eq_refl Hquiet) as [-> ->];
      [lia|intros ->; simpl in *; lia|]. destruct lvls; [simpl in *; lia|done].
  - apply Forall_app in Hquiet as [_ Hquiet].
    do 2 apply Forall_cons in Hquiet as [_ Hquiet].
    destruct (IH lp' pp' eq_refl Hquiet) as [-> ->];
      [lia|intros ->; simpl in *; lia|]. destruct lvls; [simpl in *; lia|done].
Qed.

(** C6: with more than one level and no timeout (no time-limit check
    and no child-out-of-time check answers yes), a [fit_predict] that
    returns leaves as many retained levels in [self.levels] as were
    configured: every level but the last with all its pipelines, then
    the pipelines the blender kept of the last level. *)
Theorem no_timeout_retains_all_levels td roles tf cv vd vf st lv blended st' evs :
  _levels (self st) = Some lv → (1 < length lv)%nat →
  fit_predict td roles tf cv vd vf st = (inr blended, st') →
  log st' = log st ++ evs → Forall (λ e, is_timeout e = false) evs →
  ∃ preds last_pipes,
    levels (self st') = Some (removelast lv ++ [last_pipes]) ∧
    length (removelast lv ++ [last_pipes]) = length lv ∧
    EvBlenderFit preds (last lv) blended last_pipes ∈ evs.
Proof.
  intros Hlv Hlen Hrun Hlog Hquiet. rewrite fit_predict_eq in Hrun.
  destruct (read_training td tf roles st) as [d st2] eqn:Hread.
  assert (self st2 = self st ∧ log st2 = log st ++ [EvTimerStart; EvFitRead d])
    as [Hs2 Hl2] by (by inversion Hread).
  rewrite Hlv in Hrun.
  destruct (_ || _); [|discriminate]. destruct (_ || _); [|discriminate].
  apply fit_predict_checked_run with (lv := lv) in Hrun; [|by rewrite Hs2].
  destruct Hrun as (pre & vds & it & evs' & rl & kept & Hpre & Hit & Hruns & _ & Hcase).
  destruct rl as [e|[lp' pp']]; [by destruct Hcase|].
  destruct Hcase as (b & last_pipes & [= <-] & _ & Hlog' & Hlevels & _).
  rewrite Hlog', Hl2, <-!app_assoc in Hlog. apply app_inv_head in Hlog. subst evs.
  assert (Hq : Forall (λ e, is_timeout e = false) evs').
  { simpl in Hquiet. do 2 apply Forall_cons in Hquiet as [_ Hquiet].
    apply Forall_app in Hquiet as [_ Hquiet].
    apply Forall_cons in Hquiet as [_ Hquiet].
    by apply Forall_app in Hquiet as [? _]. }
  destruct (levels_run_no_timeout _ _ _ _ _ _ _ _ _ _ Hruns lp' pp' eq_refl Hq)
    as [-> ->]; [lia|intros ->; simpl in *; lia|].
  exists lp', last_pipes. split_and!; [done| |].
  - rewrite length_app, <-(length_removelast_S lv); [simpl; lia|].
    intros ->. simpl in *. lia.
  - do 4 (apply elem_of_app; right). left.
Qed.

(** ** Used features *)

Lemma elem_of_used_feats_pipes (w : World) (lvl : list Pipe) (acc : gset string) f :
  f ∈ foldl (λ acc pipe, acc ∪ list_to_set (pipe_used_features pipe w)) acc lvl ↔
  f ∈ acc ∨ ∃ p, p ∈ lvl ∧ f ∈ pipe_used_features p w.
Proof.
  revert acc. induction lvl as [|p lvl IH]; intros acc; simpl.
  - split; [by left|]. intros [?|(p & Hp & _)]; [done|]. by apply elem_of_nil in Hp.
  - rewrite IH, elem_of_union, elem_of_list_to_set. split.
    + intros [[?|?]|(q & ? & ?)]; [by left|right..].
      * exists p. split; [left|done].
      * exists q. split; [by right|done].
    + intros [?|(q & Hq & ?)]; [by left; left|].
      apply elem_of_cons in Hq as [->|?]; [left; by right|right; eauto].
Qed.

Lemma elem_of_used_feats_levels (w : World) lvls (acc : gset string) f :
  f ∈ foldl (λ acc lvl,
         foldl (λ acc pipe, acc ∪ list_to_set (pipe_used_features pipe w)) acc lvl)
       acc lvls ↔
  f ∈ acc ∨ ∃ lvl p, lvl ∈ lvls ∧ p ∈ lvl ∧ f ∈ pipe_used_features p w.
Proof.
  revert acc. induction lvls as [|lvl lvls IH]; intros acc; simpl.
  - split; [by left|]. intros [?|(l & p & Hl & _)]; [done|]. by apply elem_of_nil in Hl.
  - rewrite IH, elem_of_used_feats_pipes. split.
    + intros [[?|(p & ? & ?)]|(l & p & ? & ? & ?)]; [by left|right..].
      * exists lvl, p. split_and!; [left|done..].
      * exists l, p. split_and!; [by right|done..].
    + intros [?|(l & p & Hl & ? & ?)]; [by left; left|].
      apply elem_of_cons in Hl as [->|?]; [left; right; eauto|right; eauto 6].
Qed.

Lemma elem_of_used_feats_of (w : World) lvls f :
  f ∈ used_feats_of w lvls ↔
  ∃ lvl p, lvl ∈ lvls ∧ p ∈ lvl ∧ f ∈ pipe_used_features p w.
Proof.
  unfold used_feats_of. rewrite elem_of_used_feats_levels. split; [|by right].
  intros [Hf|?]; [|done]. by apply elem_of_empty in Hf.
Qed.

(** C7, as the code has it: after a [fit_predict] that returns,
    [collect_used_feats()] is the set of the features used by the
    retained pipelines of all retained levels, and the reader's used
    features are exactly those of the features it had set in [fit_read]
    that are in [collect_used_feats()]: every feature no retained
    pipeline refers to has been removed.  ([collect_used_feats()] itself
    need not be within the reader's features: the pipelines of a later
    level use prediction columns.) *)
Theorem used_features_after_fit td roles tf cv vd vf st blended st' :
  fit_predict td roles tf cv vd vf st = (inr blended, st') →
  ∃ lvls feats,
    levels (self st') = Some lvls ∧
    collect_used_feats st' = (inr feats, st') ∧
    (∀ f, f ∈ feats ↔
          ∃ lvl p, lvl ∈ lvls ∧ p ∈ lvl ∧ f ∈ pipe_used_features p (world st')) ∧
    (∀ f, f ∈ used_features st' ↔
          f ∈ used_features (read_training td tf roles st).2 ∧ f ∈ feats).
Proof.
  intros Hrun. rewrite fit_predict_eq in Hrun.
  destruct (read_training td tf roles st) as [d st2] eqn:Hread.
  assert (self st2 = self st) as Hs2 by (by inversion Hread).
  destruct (_levels (self st)) as [lv|] eqn:Hlv; [|discriminate].
  destruct (_ || _); [|discriminate]. destruct (_ || _); [|discriminate].
  apply fit_predict_checked_run with (lv := lv) in Hrun; [|by rewrite Hs2].
  destruct Hrun as (pre & vds & it & evs & rl & kept & _ & _ & _ & _ & Hcase).
  destruct rl as [e|[lp' pp']]; [by destruct Hcase|].
  destruct Hcase as (b & last_pipes & _ & _ & _ & Hlevels & _ & Hused).
  exists (kept ++ [last_pipes]),
    (elements (used_feats_of (world st') (kept ++ [last_pipes]))).
  split_and!; [done| | |].
  - unfold collect_used_feats, get_levels, gets, ret, bind. by rewrite Hlevels.
  - intros f. by rewrite elem_of_elements, elem_of_used_feats_of.
  - intros f. simpl. rewrite Hused, list_elem_of_filter, !elem_of_elements,
      elem_of_difference, elem_of_list_to_set.
    destruct (decide (f ∈ used_feats_of (world st') (kept ++ [last_pipes])));
      tauto.
Qed.

(** ** Single use *)

(** C10: [fit_predict] deletes [_levels] when it returns, so a second
    [fit_predict] on the same object raises an attribute error right
    after reading the data, without fitting anything; and [predict] on
    an object that was initialised but never fitted raises an attribute
    error, because only [fit_predict] creates [levels]. *)
Theorem fit_predict_single_use td roles tf cv vd vf st blended st1
    td2 roles2 tf2 cv2 vd2 vf2 lvls skip st0 sti data fn :
  fit_predict td roles tf cv vd vf st = (inr blended, st1) →
  levels (self st0) = None → _initialize lvls skip st0 = (inr tt, sti) →
  _levels (self st1) = None ∧
  (∃ st2,
     fit_predict td2 roles2 tf2 cv2 vd2 vf2 st1 =
       (inl (AttributeError (msg_attr "_levels")), st2) ∧
     self st2 = self st1 ∧
     log st2 = log st1 ++ [EvTimerStart; EvFitRead (read_training td2 tf2 roles2 st1).1]) ∧
  (∃ sti',
     predict data fn sti = (inl (AttributeError (msg_attr "levels")), sti') ∧
     self sti' = self sti).
Proof.
  intros Hrun Hfresh Hinit.
  assert (H_1 : _levels (self st1) = None).
  { rewrite fit_predict_eq in Hrun.
    destruct (read_training td tf roles st) as [d st2] eqn:Hread.
    assert (self st2 = self st) as Hs2 by (by inversion Hread).
    destruct (_levels (self st)) as [lv|] eqn:Hlv; [|discriminate].
    destruct (_ || _); [|discriminate]. destruct (_ || _); [|discriminate].
    apply fit_predict_checked_run with (lv := lv) in Hrun; [|by rewrite Hs2].
    destruct Hrun as (pre & vds & it & evs & rl & kept & _ & _ & _ & _ & Hcase).
    destruct rl as [e|[lp' pp']]; [by destruct Hcase|].
    by destruct Hcase as (b & last_pipes & _ & _ & _ & _ & ? & _). }
  split_and!; [done| |].
  - rewrite fit_predict_eq, H_1.
    destruct (read_training td2 tf2 roles2 st1) as [d st2] eqn:Hread.
    exists st2. by inversion Hread.
  - destruct lvls as [|l lvls]; [discriminate|].
    destruct (initialize_run (l :: lvls) skip st0) as (sti2 & Hrun2 & Hs & _);
      [simpl; lia|].
    rewrite Hrun2 in Hinit. injection Hinit as ->.
    destruct (predict data fn sti) as [r sti'] eqn:Hp.
    pose proof Hp as Hp'.
    apply predict_run_of in Hp' as (d & Hself & _ & Hcase).
    rewrite Hs in Hcase. simpl in Hcase. rewrite Hfresh in Hcase.
    destruct Hcase as [-> _]. by exists sti'.
Qed.

(** ** Inference leaves everything as it was *)

#[local] Abbreviation stableM m :=
  (stable (Dataset:=Dataset) (Pipe:=Pipe) (ValidIter:=ValidIter)
     (CvIter:=CvIter) (World:=World) m).
#[local] Abbreviation same_worldM := (same_world (Dataset:=Dataset) (Pipe:=Pipe)
  (ValidIter:=ValidIter) (CvIter:=CvIter) (World:=World)).

Lemma stable_ret {A} (x : A) : stableM (ret x).
Proof. by intros a b Hab. Qed.

Lemma stable_raise {A} (e : pyerr) : stableM (raise (A:=A) e).
Proof. by intros a b Hab. Qed.

Lemma stable_bind {A B} (m : M A) (f : A → M B) :
  stable m → (∀ x, stableM (f x)) → stableM (bind m f).
Proof.
  intros Hm Hf a b Hab. unfold bind. destruct (Hm a b Hab) as [Hr Hst].
  destruct (m a) as [[e|x] a1], (m b) as [[e'|x'] b1]; simplify_eq/=; [done|].
  by apply Hf.
Qed.

Lemma stable_call {A} (f : World → A * World) (ev : A → event) : stableM (call f ev).
Proof. intros a b [Hs Hw]. rewrite !call_eq. simpl. by rewrite Hw. Qed.

Lemma stable_get_levels : stableM get_levels.
Proof.
  intros a b [Hs Hw]. unfold get_levels. rewrite Hs.
  by destruct (levels (self b)).
Qed.

Lemma stable_gets_self {A} (f : AutoML Pipe → A) : stableM (gets (λ st, f (self st))).
Proof. intros a b [Hs Hw]. unfold gets. simpl. by rewrite Hs. Qed.

Lemma stable_convert target src : stableM (convert target src).
Proof.
  unfold convert. apply stable_bind; [apply stable_call|].
  intros [e|d]; [|apply stable_ret]. destruct (is_TypeError e); apply stable_raise.
Qed.

Lemma stable_predict_level level (d : Dataset) acc : stableM (predict_level level d acc).
Proof.
  revert acc. induction level as [|p level IH]; intros acc; simpl.
  - apply stable_ret.
  - apply stable_bind; [apply stable_call|]. intros pred. apply IH.
Qed.

Lemma stable_predict_levels N n lvls (d : Dataset) b :
  stableM (predict_levels N n lvls d b).
Proof.
  revert n d b. induction lvls as [|level lvls IH]; intros n d b; simpl.
  - apply stable_ret.
  - apply stable_bind; [apply stable_predict_level|]. intros preds.
    destruct (negb _).
    + apply stable_bind; [apply (stable_gets_self skip_conn)|]. intros skip.
      apply stable_bind; [|intros; apply IH].
      destruct skip; [|apply stable_ret].
      apply stable_bind; [apply stable_convert|]. intros; apply stable_ret.
    + apply stable_bind; [apply stable_call|]. intros; apply IH.
Qed.

Lemma stable_predict data fn : stableM (predict data fn).
Proof.
  unfold predict. apply stable_bind; [apply stable_call|]. intros d.
  apply stable_bind; [apply stable_get_levels|]. intros lv.
  apply stable_predict_levels.
Qed.

#[local] Instance same_world_preorder : PreOrder same_worldM.
Proof. split; [done|]. intros a b c Hab Hbc. unfold same_world in *. congruence. Qed.

Lemma steps_call_same_world {A} (f : World → A * World) (ev : A → event) :
  (∀ w, (f w).2 = w) → steps same_worldM (call f ev).
Proof. intros Hf st. rewrite call_eq. apply Hf. Qed.

Section PureInference.
(** The contracts of the collaborators at inference: reading data,
    predicting with a fitted pipeline and blending with fitted weights
    change nothing. *)
Hypothesis read_pure : ∀ d f b w, (reader_read d f b w).2 = w.
Hypothesis predict_pure : ∀ p d w, (pipe_predict p d w).2 = w.
Hypothesis blend_pure : ∀ preds w, (blender_predict preds w).2 = w.

Lemma same_world_convert target src : steps same_worldM (convert target src).
Proof.
  unfold convert. apply steps_bind; [apply _|by apply steps_call_same_world|].
  intros [e|d]; [|apply steps_ret, _].
  destruct (is_TypeError e); apply steps_raise, _.
Qed.

Lemma same_world_predict_level level (d : Dataset) acc :
  steps same_worldM (predict_level level d acc).
Proof.
  revert acc. induction level as [|p level IH]; intros acc; simpl.
  - apply steps_ret, _.
  - apply steps_bind; [apply _| |intros; apply IH].
    by apply steps_call_same_world.
Qed.

Lemma same_world_predict_levels N n lvls (d : Dataset) b :
  steps same_worldM (predict_levels N n lvls d b).
Proof.
  revert n d b. induction lvls as [|level lvls IH]; intros n d b; simpl.
  - apply steps_ret, _.
  - apply steps_bind; [apply _|apply same_world_predict_level|]. intros preds.
    destruct (negb _).
    + apply steps_bind; [apply _|apply steps_gets, _|]. intros skip.
      apply steps_bind; [apply _| |intros; apply IH].
      destruct skip; [|apply steps_ret, _].
      apply steps_bind; [apply _|apply same_world_convert|].
      intros; apply steps_ret, _.
    + apply steps_bind; [apply _| |intros; apply IH].
      by apply steps_call_same_world.
Qed.

Lemma same_world_predict data fn : steps same_worldM (predict data fn).
Proof.
  unfold predict. apply steps_bind; [apply _| |].
  - by apply steps_call_same_world.
  - intros d. apply steps_bind; [apply _|apply steps_get_levels, _|].
    intros lv. apply same_world_predict_levels.
Qed.
End PureInference.

Lemma predict_run_inference N skip n lvls (d : Dataset) b evs r :
  predict_run N skip n lvls d b evs r → Forall (λ e, is_inference e = true) evs.
Proof.
  assert (Hpe : ∀ (d : Dataset) (preds : list (Pipe * Dataset)),
    Forall (λ e, is_inference e = true)
      (predict_events (ValidIter:=ValidIter) (CvIter:=CvIter) d preds)).
  { intros. unfold predict_events. apply Forall_fmap, Forall_forall. by intros [??] _. }
  induction 1; repeat (apply Forall_app; split);
    try apply Hpe; try done; by repeat constructor.
Qed.

(** C8: [predict] assigns no attribute of the object, leaves the
    reader's used features alone, and calls only the reader's [read],
    the pipelines' [predict], [from_dataset] and the blender's
    [predict]: no timer check, no [upd_used_features].  When, as their
    contracts say, these collaborators change nothing at inference, a
    second [predict] on the same input gives the same result as the
    first. *)
Theorem predict_twice_same_result data fn st r st1 :
  (∀ d f b w, (reader_read d f b w).2 = w) →
  (∀ p d w, (pipe_predict p d w).2 = w) →
  (∀ preds w, (blender_predict preds w).2 = w) →
  predict data fn st = (r, st1) →
  self st1 = self st ∧ used_features st1 = used_features st ∧
  world st1 = world st ∧
  (∃ evs, log st1 = log st ++ evs ∧ Forall (λ e, is_inference e = true) evs) ∧
  (predict data fn st1).1 = r.
Proof.
  intros Hread Hpred Hblend Hrun.
  pose proof (same_world_predict Hread Hpred Hblend data fn st) as Hw.
  rewrite Hrun in Hw. unfold same_world in Hw. simpl in Hw.
  pose proof Hrun as Hrun'.
  apply predict_run_of in Hrun' as (d & Hs & Hu & Hcase).
  split_and!; [done..| |].
  - destruct (levels (self st)) as [lv|].
    + destruct Hcase as (evs & Hruns & Hlog). eexists. split; [exact Hlog|].
      constructor; [done|]. by eapply predict_run_inference.
    + destruct Hcase as [_ Hlog]. eexists. split; [exact Hlog|]. by repeat constructor.
  - destruct (stable_predict data fn st1 st) as [Hr _]; [by split|].
    by rewrite Hr, Hrun.
Qed.

End Properties.

(** * The properties on concrete runs *)

Section Examples.

Import Toy.

(** C3: the names start with "Lvl_", not "Level_". *)
Lemma model_name_is_not_Level :
  log (init [[1]] false 10 false) = [EvUpdModelNames 1 "Lvl_0_Pipe_0"] ∧
  log (init [[1]] false 10 false) ≠ [EvUpdModelNames 1 "Level_0_Pipe_0"].
Proof. split; [reflexivity|discriminate]. Qed.

Lemma initialize_model_names_witness :
  (0 < length two_levels)%nat ∧
  ∃ st', _initialize two_levels false (fresh 10 false) = (inr tt, st') ∧
    log st' = log (fresh 10 false) ++
      concat (imap (λ i lvl,
        imap (λ j p, EvUpdModelNames p ("Lvl_" +:+ pretty i +:+ "_Pipe_" +:+ pretty j)) lvl)
        two_levels) ∧
    ∀ i j i' j' : nat,
      "Lvl_" +:+ pretty i +:+ "_Pipe_" +:+ pretty j =
      "Lvl_" +:+ pretty i' +:+ "_Pipe_" +:+ pretty j' → i = i' ∧ j = j'.
Proof.
  split; [simpl; lia|].
  apply (initialize_model_names two_levels false (fresh 10 false)). simpl; lia.
Defined.

(** C2: two levels, no folds, a custom iterator: the assertion still
    fails, although the claim's condition (no folds and no iterator) is
    false. *)
Lemma cv_iter_does_not_replace_folds :
  ¬ ((fit (table_no_folds ["a"; "b"; "c"]) (Some tt)
          (init two_levels false 10 false)).1 = inl (AssertionError msg_no_folds)
     ↔ (folds (table_no_folds ["a"; "b"; "c"]) = None ∧ (Some tt : option unit) = None)).
Proof. intros [H _]. by destruct (H eq_refl) as [_ ?]. Qed.

Lemma folds_assertion_ignores_cv_iter_witness :
  _levels (self (init two_levels false 10 false)) = Some two_levels ∧
  (1 < length two_levels)%nat ∧
  (((fit (table_no_folds ["a"]) (Some tt) (init two_levels false 10 false)).1 =
      inl (AssertionError msg_no_folds) ∧
    log (fit (table_no_folds ["a"]) (Some tt) (init two_levels false 10 false)).2 =
      log (init two_levels false 10 false) ++
      [EvTimerStart;
       EvFitRead (read_training (table_no_folds ["a"]) None tt
                    (init two_levels false 10 false)).1])
   ↔ folds (read_training (table_no_folds ["a"]) None tt
              (init two_levels false 10 false)).1 = None).
Proof.
  split; [reflexivity|]. split; [simpl; lia|].
  apply (folds_assertion_ignores_cv_iter (table_no_folds ["a"]) tt None (Some tt)
           None None (init two_levels false 10 false) two_levels);
    [reflexivity|simpl; lia].
Defined.

(** C9 on two levels with a holdout set. *)
Lemma configuration_errors_before_training_witness :
  _levels (self (init two_levels false 10 false)) = Some two_levels ∧
  (1 < length two_levels)%nat ∧
  __init__ [] false (fresh 10 false) =
    (inl (AssertionError msg_no_levels), fresh 10 false) ∧
  ∃ msg st',
    fit_holdout data data (init two_levels false 10 false) =
      (inl (AssertionError msg), st') ∧
    msg = (if bool_decide (is_Some (folds (read_training data None tt
                                             (init two_levels false 10 false)).1))
           then msg_holdout else msg_no_folds) ∧
    self st' = self (init two_levels false 10 false) ∧
    log st' = log (init two_levels false 10 false) ++
      [EvTimerStart;
       EvFitRead (read_training data None tt (init two_levels false 10 false)).1] ∧
    Forall (λ e, is_fit e = false)
      (drop (length (log (init two_levels false 10 false))) (log st')).
Proof.
  split; [reflexivity|]. split; [simpl; lia|].
  apply (configuration_errors_before_training data tt None None data None
           (init two_levels false 10 false) two_levels false (fresh 10 false));
    [reflexivity|simpl; lia].
Defined.

(** C1: one level of two pipelines; the blender is given the list of
    the two predictions, not their concatenation. *)
Lemma blender_not_given_concatenation :
  blender_args (log (fit data None (init [[1; 2]] false 10 false)).2) =
    [PyList [mkDs 1 None ["pred_1"]; mkDs 1 None ["pred_2"]]] ∧
  blender_args (log (fit data None (init [[1; 2]] false 10 false)).2) ≠
    [PyDataset (concatenate [mkDs 1 None ["pred_1"]; mkDs 1 None ["pred_2"]])].
Proof. split; [vm_compute; reflexivity|vm_compute; discriminate]. Qed.

Lemma blender_receives_prediction_list_witness :
  two_levels ≠ [] ∧
  (_levels (self st_ok) = Some two_levels ∧
   fit_predict data tt None None None None st_ok =
     (inr (mkDs 1 None ["pred_3"]), ok_run.2) ∧
   ∃ e1 last_pipes remove,
     log ok_run.2 = log st_ok ++ e1 ++
       [EvBlenderFit (PyList (current_fits e1).*2) (Some (current_fits e1).*1)
          (mkDs 1 None ["pred_3"]) last_pipes;
        EvUpdUsedFeatures remove] ∧
     Forall (λ e, is_blender_call e = false) e1) ∧
  (levels (self ok_run.2) = Some two_levels ∧
   predict data None ok_run.2 =
     (inr (PyDataset (mkDs 1 None ["pred_3"])), ok_predict.2) ∧
   ∃ e1 d preds blended,
     log ok_predict.2 = log ok_run.2 ++ e1 ++ predict_events d preds ++
       [EvBlenderPredict (PyList preds.*2) blended] ∧
     Forall (λ e, is_blender_call e = false) (e1 ++ predict_events d preds) ∧
     last two_levels = Some preds.*1 ∧
     PyDataset (mkDs 1 None ["pred_3"]) = PyDataset blended).
Proof.
  assert (Hne : two_levels ≠ []) by discriminate.
  destruct (blender_receives_prediction_list two_levels two_levels Hne Hne)
    as [Hfit Hpredict].
  split; [exact Hne|]. split.
  - split; [(vm_compute; reflexivity)|]. split; [(vm_compute; reflexivity)|].
    apply (Hfit data tt None None None None st_ok); (vm_compute; reflexivity).
  - split; [(vm_compute; reflexivity)|]. split; [(vm_compute; reflexivity)|].
    apply (Hpredict data None ok_run.2); (vm_compute; reflexivity).
Defined.

(** C4 on a budget the first fit of the first level exhausts. *)
Lemma time_limit_stops_training_witness :
  fit_predict data tt None None None None st_cut = (cut_run.1, cut_run.2) ∧
  log cut_run.2 = log st_cut ++ take 4 (calls st_cut cut_run.2) ++
    EvTimeLimitExceeded true :: drop 5 (calls st_cut cut_run.2) ∧
  ∃ blended last_pipes remove,
    cut_run.1 = inr blended ∧
    drop 5 (calls st_cut cut_run.2) =
      [EvBlenderFit (PyList (current_fits (take 4 (calls st_cut cut_run.2))).*2)
         (Some (current_fits (take 4 (calls st_cut cut_run.2))).*1)
         blended last_pipes;
       EvUpdUsedFeatures remove] ∧
    current_fits (take 4 (calls st_cut cut_run.2)) ≠ [] ∧
    ∃ w, blender_fit_predict
           (PyList (current_fits (take 4 (calls st_cut cut_run.2))).*2)
           (Some (current_fits (take 4 (calls st_cut cut_run.2))).*1) w =
         (blended, last_pipes, world cut_run.2).
Proof.
  split; [(vm_compute; reflexivity)|]. split; [(vm_compute; reflexivity)|].
  apply (time_limit_stops_training data tt None None None None st_cut); (vm_compute; reflexivity).
Defined.

(** C5 on data whose type the predictions cannot take. *)
Lemma conversion_failure_is_fatal_witness :
  is_conversion_failure failed_conversion = true ∧
  (fit_predict (sparse ["a"; "b"; "c"]) tt None None None None st_skip =
     (sparse_run.1, sparse_run.2) ∧
   log sparse_run.2 = log st_skip ++ take 8 (calls st_skip sparse_run.2) ++
     failed_conversion :: [] ∧
   sparse_run.1 = inl (TypeError msg_skip_conn) ∧
   ([] : list (event dataset nat (dataset * option dataset) unit)) = [] ∧
   skip_conn (self st_skip) = true) ∧
  (predict (sparse ["a"; "b"; "c"]) None skip_run.2 =
     (sparse_predict.1, sparse_predict.2) ∧
   log sparse_predict.2 = log skip_run.2 ++ take 3 (calls skip_run.2 sparse_predict.2) ++
     failed_conversion :: [] ∧
   sparse_predict.1 = inl (TypeError msg_skip_conn) ∧
   ([] : list (event dataset nat (dataset * option dataset) unit)) = [] ∧
   skip_conn (self skip_run.2) = true).
Proof.
  assert (Hx : is_conversion_failure failed_conversion = true) by (vm_compute; reflexivity).
  destruct (conversion_failure_is_fatal failed_conversion Hx) as [Hfit Hpredict].
  split; [exact Hx|]. split.
  - split; [(vm_compute; reflexivity)|]. split; [(vm_compute; reflexivity)|].
    apply (Hfit (sparse ["a"; "b"; "c"]) tt None None None None st_skip
             sparse_run.1 sparse_run.2 (take 8 (calls st_skip sparse_run.2)) []);
      (vm_compute; reflexivity).
  - split; [(vm_compute; reflexivity)|]. split; [(vm_compute; reflexivity)|].
    apply (Hpredict (sparse ["a"; "b"; "c"]) None skip_run.2
             sparse_predict.1 sparse_predict.2
             (take 3 (calls skip_run.2 sparse_predict.2)) []);
      (vm_compute; reflexivity).
Defined.

(** C6 on the two levels, within budget. *)
Lemma no_timeout_retains_all_levels_witness :
  _levels (self st_ok) = Some two_levels ∧ (1 < length two_levels)%nat ∧
  fit_predict data tt None None None None st_ok =
    (inr (mkDs 1 None ["pred_3"]), ok_run.2) ∧
  log ok_run.2 = log st_ok ++ calls st_ok ok_run.2 ∧
  Forall (λ e, is_timeout e = false) (calls st_ok ok_run.2) ∧
  ∃ preds last_pipes,
    levels (self ok_run.2) = Some (removelast two_levels ++ [last_pipes]) ∧
    length (removelast two_levels ++ [last_pipes]) = length two_levels ∧
    EvBlenderFit preds (last two_levels) (mkDs 1 None ["pred_3"]) last_pipes
      ∈ calls st_ok ok_run.2.
Proof.
  assert (Hquiet : Forall (λ e, is_timeout e = false) (calls st_ok ok_run.2))
    by (vm_compute; repeat constructor).
  split; [vm_compute; reflexivity|]. split; [simpl; lia|].
  split; [vm_compute; reflexivity|]. split; [vm_compute; reflexivity|].
  split; [exact Hquiet|].
  apply (no_timeout_retains_all_levels data tt None None None None st_ok two_levels
           (mkDs 1 None ["pred_3"]) ok_run.2 (calls st_ok ok_run.2));
    [vm_compute; reflexivity|simpl; lia|vm_compute; reflexivity
    |vm_compute; reflexivity|exact Hquiet].
Defined.

(** C7: the pipeline of the second level uses the prediction columns of
    the first, which are not among the reader's features. *)
Lemma collected_features_outside_reader :
  (collect_used_feats ok_run.2).1 = inr ["a"; "b"; "pred_1"; "pred_2"] ∧
  used_features (read_training data None tt st_ok).2 = ["a"; "b"; "c"] ∧
  ¬ (["a"; "b"; "pred_1"; "pred_2"] ⊆ ["a"; "b"; "c"]).
Proof.
  split; [vm_compute; reflexivity|]. split; [vm_compute; reflexivity|].
  intros Hsub. specialize (Hsub "pred_1").
  assert (Hin : "pred_1" ∈ ["a"; "b"; "c"]) by (apply Hsub; do 2 right; left).
  repeat (apply elem_of_cons in Hin as [Hin|Hin]; [discriminate|]).
  by apply elem_of_nil in Hin.
Qed.

Lemma used_features_after_fit_witness :
  fit_predict data tt None None None None st_ok =
    (inr (mkDs 1 None ["pred_3"]), ok_run.2) ∧
  ∃ lvls feats,
    levels (self ok_run.2) = Some lvls ∧
    collect_used_feats ok_run.2 = (inr feats, ok_run.2) ∧
    (∀ f, f ∈ feats ↔
          ∃ lvl p, lvl ∈ lvls ∧ p ∈ lvl ∧
                   f ∈ pipe_used_features p (world ok_run.2)) ∧
    (∀ f, f ∈ used_features ok_run.2 ↔
          f ∈ used_features (read_training data None tt st_ok).2 ∧ f ∈ feats).
Proof.
  split; [vm_compute; reflexivity|].
  apply (used_features_after_fit data tt None None None None st_ok
           (mkDs 1 None ["pred_3"]) ok_run.2).
  vm_compute; reflexivity.
Defined.

(** C8 on the fitted object. *)
Lemma predict_twice_same_result_witness :
  (∀ d f b w, (reader_read (Roles:=unit) d f b w).2 = w) ∧
  (∀ p d w, (pipe_predict (Roles:=unit) p d w).2 = w) ∧
  (∀ preds w, (blender_predict preds w).2 = w) ∧
  predict data None ok_run.2 = (ok_predict.1, ok_predict.2) ∧
  self ok_predict.2 = self ok_run.2 ∧
  used_features ok_predict.2 = used_features ok_run.2 ∧
  world ok_predict.2 = world ok_run.2 ∧
  (∃ evs, log ok_predict.2 = log ok_run.2 ++ evs ∧
          Forall (λ e, is_inference e = true) evs) ∧
  (predict data None ok_predict.2).1 = ok_predict.1.
Proof.
  assert (Hread : ∀ d f b w, (reader_read (Roles:=unit) d f b w).2 = w)
    by (intros; reflexivity).
  assert (Hpred : ∀ p d w, (pipe_predict (Roles:=unit) p d w).2 = w)
    by (intros; reflexivity).
  assert (Hblend : ∀ (preds : pyval dataset) (w : tworld),
            (blender_predict preds w).2 = w) by (intros; reflexivity).
  split; [exact Hread|]. split; [exact Hpred|]. split; [exact Hblend|].
  split; [vm_compute; reflexivity|].
  apply (predict_twice_same_result data None ok_run.2 ok_predict.1 ok_predict.2
           Hread Hpred Hblend).
  vm_compute; reflexivity.
Defined.

(** C10: a second [fit_predict], and [predict] before any. *)
Lemma fit_predict_single_use_witness :
  fit_predict data tt None None None None st_ok =
    (inr (mkDs 1 None ["pred_3"]), ok_run.2) ∧
  levels (self (fresh 10 false)) = None ∧
  _initialize two_levels false (fresh 10 false) = (inr tt, st_ok) ∧
  _levels (self ok_run.2) = None ∧
  (∃ st2,
     fit_predict data tt None None None None ok_run.2 =
       (inl (AttributeError (msg_attr "_levels")), st2) ∧
     self st2 = self ok_run.2 ∧
     log st2 = log ok_run.2 ++
       [EvTimerStart; EvFitRead (read_training data None tt ok_run.2).1]) ∧
  (∃ sti',
     predict data None st_ok = (inl (AttributeError (msg_attr "levels")), sti') ∧
     self sti' = self st_ok).
Proof.
  split; [vm_compute; reflexivity|]. split; [vm_compute; reflexivity|].
  split; [vm_compute; reflexivity|].
  apply (fit_predict_single_use data tt None None None None st_ok
           (mkDs 1 None ["pred_3"]) ok_run.2 data tt None None None None
           two_levels false (fresh 10 false) st_ok data None);
    vm_compute; reflexivity.
Defined.

End Examples.

(** * Further properties of the orchestrator *)

Section MoreProperties.

Context {Dataset Pipe ValidIter RawData Roles CvIter World : Type}.
Context `{!Collaborators Dataset Pipe ValidIter RawData Roles CvIter World}.
Context `{!@BlenderOps Dataset Pipe World}.
Context {MLAlgo Model : Type} `{!@AlgoOps Pipe World MLAlgo Model}.

#[local] Abbreviation St := (St Dataset Pipe ValidIter CvIter World).
#[local] Abbreviation event := (event Dataset Pipe ValidIter CvIter).

Implicit Types (st : St) (evs : list event) (lvls : list (list Pipe)).
Implicit Types (it : ValidIter) (fits : list (Pipe * Dataset)).
Implicit Types (algos : list MLAlgo) (stats : gmap string nat).

(** ** [collect_model_stats] *)

#[local] Abbreviation record_algo := (λ (stats : gmap string nat) (a : MLAlgo),
  <[algo_name a := length (algo_models a)]> stats).

Lemma model_stats_pipes (w : World) (lvl : list Pipe) stats :
  foldl (λ stats pipe, foldl record_algo stats (pipe_ml_algos pipe w)) stats lvl =
  foldl record_algo stats (lvl ≫= λ pipe, pipe_ml_algos pipe w).
Proof.
  revert stats. induction lvl as [|p lvl IH]; intros stats; [done|].
  simpl. by rewrite IH, foldl_app.
Qed.

Lemma model_stats_flat (w : World) lvls :
  model_stats_of w lvls = foldl record_algo ∅ (retained_algos w lvls).
Proof.
  unfold model_stats_of, retained_algos. generalize (∅ : gmap string nat).
  induction lvls as [|lvl lvls IH]; intros stats; [done|].
  simpl. rewrite IH, model_stats_pipes, bind_app, foldl_app. done.
Qed.

Lemma lookup_record_algos algos stats (k : string) :
  foldl record_algo stats algos !! k =
  match last (filter (λ a, algo_name a = k) algos) with
  | Some a => Some (length (algo_models a))
  | None => stats !! k
  end.
Proof.
  revert stats. induction algos as [|a algos IH]; intros stats; [done|].
  simpl. rewrite IH, filter_cons. case_decide as Hk.
  - rewrite last_cons. destruct (last _); [done|]. subst k. by rewrite lookup_insert_eq.
  - destruct (last _); [done|]. by rewrite lookup_insert_ne.
Qed.

Lemma collect_model_stats_eq st lvls :
  levels (self st) = Some lvls →
  collect_model_stats st = (inr (model_stats_of (world st) lvls), st).
Proof. intros Hl. unfold collect_model_stats, get_levels, gets, ret, bind. by rewrite Hl. Qed.

Lemma dom_record_algos algos :
  dom (foldl record_algo ∅ algos) = list_to_set (algo_name <$> algos).
Proof.
  apply set_eq. intros k.
  rewrite elem_of_dom, lookup_record_algos, elem_of_list_to_set, list_elem_of_fmap.
  destruct (last _) as [a|] eqn:Hlast.
  - apply last_Some in Hlast as [l' Hl'].
    assert (Ha : a ∈ filter (λ a, algo_name a = k) algos).
    { rewrite Hl'. apply elem_of_app. right. left. }
    apply list_elem_of_filter in Ha as [Hk Ha]. split; [|by eauto]. eauto.
  - apply last_None in Hlast. rewrite lookup_empty. split; [by intros [??]|].
    intros (a & -> & Ha). exfalso.
    assert (Hin : a ∈ filter (λ a', algo_name a' = algo_name a) algos)
      by (by apply list_elem_of_filter).
    rewrite Hlast in Hin. by apply elem_of_nil in Hin.
Qed.

(** X1: the dict returned by [collect_model_stats] has as keys exactly
    the names of the algorithms of the retained pipelines. *)
Theorem model_stats_keys st lvls :
  levels (self st) = Some lvls →
  ∃ stats, collect_model_stats st = (inr stats, st) ∧
    dom stats = list_to_set (algo_name <$> retained_algos (world st) lvls).
Proof.
  intros Hl. eexists. split; [by apply collect_model_stats_eq|].
  by rewrite model_stats_flat, dom_record_algos.
Qed.

(** X2: later occurrences of a name overwrite earlier ones: under each
    name the dict holds the number of models of the last algorithm of
    that name, in the order levels, pipelines and algorithms are
    visited; counts are not added up. *)
Theorem model_stats_last_wins st lvls (k : string) :
  levels (self st) = Some lvls →
  ∃ stats, collect_model_stats st = (inr stats, st) ∧
    stats !! k =
      (λ a, length (algo_models a)) <$>
        last (filter (λ a, algo_name a = k) (retained_algos (world st) lvls)).
Proof.
  intros Hl. eexists. split; [by apply collect_model_stats_eq|].
  rewrite model_stats_flat, lookup_record_algos. by destruct (last _).
Qed.

Lemma last_filter_unique algos (a : MLAlgo) :
  NoDup (algo_name <$> algos) → a ∈ algos →
  last (filter (λ a', algo_name a' = algo_name a) algos) = Some a.
Proof.
  induction algos as [|b algos IH]; intros Hnd Ha; [by apply elem_of_nil in Ha|].
  rewrite fmap_cons in Hnd. apply NoDup_cons in Hnd as [Hb Hnd].
  rewrite filter_cons. apply elem_of_cons in Ha as [->|Ha].
  - rewrite decide_True by done. rewrite last_cons.
    destruct (last _) as [c|] eqn:Hlast; [|done]. exfalso.
    apply last_Some in Hlast as [l' Hl'].
    assert (Hc : c ∈ filter (λ a', algo_name a' = algo_name b) algos)
      by (rewrite Hl'; apply elem_of_app; right; left).
    apply list_elem_of_filter in Hc as [Hname Hc]. apply Hb.
    rewrite <-Hname. apply list_elem_of_fmap. eauto.
  - rewrite decide_False; [by apply IH|].
    intros Hname. apply Hb. rewrite Hname. apply list_elem_of_fmap. eauto.
Qed.

(** X3: when the algorithms of the retained pipelines have pairwise
    different names, the dict has one entry per algorithm, holding the
    number of its models. *)
Theorem model_stats_distinct_names st lvls :
  levels (self st) = Some lvls →
  NoDup (algo_name <$> retained_algos (world st) lvls) →
  ∃ stats, collect_model_stats st = (inr stats, st) ∧
    size stats = length (retained_algos (world st) lvls) ∧
    ∀ a, a ∈ retained_algos (world st) lvls →
         stats !! algo_name a = Some (length (algo_models a)).
Proof.
  intros Hl Hnd. eexists. split; [by apply collect_model_stats_eq|].
  rewrite model_stats_flat. split.
  - by rewrite <-size_dom, dom_record_algos, size_list_to_set, length_fmap.
  - intros a Ha. by rewrite lookup_record_algos, last_filter_unique.
Qed.

(** ** The bookkeeping utilities *)

(** X4: on an object that was initialised but never fitted, both
    [collect_used_feats] and [collect_model_stats] raise an attribute
    error, since only [fit_predict] creates [self.levels]; the object is
    left as it was. *)
Theorem bookkeeping_needs_fit lvls (skip : bool) st0 st :
  levels (self st0) = None → _initialize lvls skip st0 = (inr tt, st) →
  collect_used_feats st = (inl (AttributeError (msg_attr "levels")), st) ∧
  collect_model_stats st = (inl (AttributeError (msg_attr "levels")), st).
Proof.
  intros Hfresh Hinit.
  destruct lvls as [|l lvls]; [discriminate|].
  destruct (initialize_run (l :: lvls) skip st0) as (st2 & Hrun & Hs & _);
    [simpl; lia|].
  rewrite Hrun in Hinit. injection Hinit as ->.
  assert (Hl : levels (self st) = None) by (by rewrite Hs).
  unfold collect_used_feats, collect_model_stats, get_levels, bind.
  by rewrite Hl.
Qed.

(** X5: on an object with retained levels, [collect_used_feats] returns
    each feature used by a retained pipeline, and nothing else, exactly
    once, however many pipelines use it; it changes nothing. *)
Theorem collect_used_feats_no_duplicates st lvls :
  levels (self st) = Some lvls →
  ∃ feats, collect_used_feats st = (inr feats, st) ∧
    NoDup feats ∧
    ∀ f, f ∈ feats ↔
         ∃ lvl p, lvl ∈ lvls ∧ p ∈ lvl ∧ f ∈ pipe_used_features p (world st).
Proof.
  intros Hl. exists (elements (used_feats_of (world st) lvls)). split_and!.
  - unfold collect_used_feats, get_levels, gets, ret, bind. by rewrite Hl.
  - apply NoDup_elements.
  - intros f. by rewrite elem_of_elements, elem_of_used_feats_of.
Qed.

(** ** More on the runs of [fit_predict] *)



(** X9: a [fit_predict] that raises, whatever the exception, leaves the
    level configuration [self._levels] and [self.skip_conn] as they
    were: only a [fit_predict] that returns deletes [_levels]. *)
Theorem failed_fit_keeps_configuration td roles tf cv vd vf st e st' :
  fit_predict td roles tf cv vd vf st = (inl e, st') →
  _levels (self st') = _levels (self st) ∧
  skip_conn (self st') = skip_conn (self st).
Proof.
  intros Hrun. rewrite fit_predict_eq in Hrun.
  destruct (read_training td tf roles st) as [d st2] eqn:Hread.
  assert (self st2 = self st) as Hs2 by (by inversion Hread).
  destruct (_levels (self st)) as [lv|] eqn:Hlv;
    [|injection Hrun as _ <-; by rewrite Hs2, Hlv].
  destruct (_ || _); [|injection Hrun as _ <-; by rewrite Hs2, Hlv].
  destruct (_ || _); [|injection Hrun as _ <-; by rewrite Hs2, Hlv].
  apply fit_predict_checked_run with (lv := lv) in Hrun; [|by rewrite Hs2].
  destruct Hrun as (pre & vds & it & evs & rl & kept & _ & _ & _ & Hk & Hcase).
  rewrite Hs2 in Hk. split; [|done].
  destruct rl as [e'|[lp pp]].
  - by destruct Hcase as (_ & _ & _ & ? & _).
  - by destruct Hcase as (? & ? & ? & _).
Qed.





Lemma levels_run_child_timeout N skip n lvls it lp pp evs r kept :
  levels_run N skip n lvls it lp pp evs r kept →
  ∀ e1 e2, evs = e1 ++ EvChildOutOfTime true :: e2 →
    e2 = [] ∧
    r = inr (PyList (foldl fit_step [] e1).*2, Some (foldl fit_step [] e1).*1) ∧
    (foldl fit_step [] e1).*1 ∈ lvls.
Proof.
  assert (Hclean : ∀ it fits,
    Forall (λ e, is_child_timeout e = false) (fit_events (CvIter:=CvIter) it fits))
    by (intros; by apply fit_events_clean).
  induction 1 as [n it lp pp|n level lvls it lp pp fits p d rest Hlevel
    |n level lvls it lp pp fits out Hfits Hout
    |n level lvls it lp pp fits e Hfits Hn Hskip Hfrom
    |n level lvls it lp pp fits c evs r kept Hfits Hn Hskip Hfrom next it' Hrun IH
    |n level lvls it lp pp fits evs r kept Hfits Hn Hskip next it' Hrun IH];
    intros e1 e2 Heq.
  - by destruct e1.
  - exfalso. revert Heq. apply (clean_no_split is_child_timeout); [|done].
    apply Forall_app; split; [apply Hclean|by repeat constructor].
  - apply (split_after_clean is_child_timeout) in Heq as (e1' & -> & Heq);
      [|apply Hclean|done].
    destruct e1' as [|? [|? ?]]; simplify_eq/=.
    rewrite app_nil_r, foldl_fit_events. simpl. split_and!; [done..|]. left.
  - exfalso. revert Heq. apply (clean_no_split is_child_timeout); [|done].
    apply Forall_app; split; [apply Hclean|by repeat constructor].
  - rewrite app_assoc in Heq.
    apply (split_after_clean is_child_timeout) in Heq as (e1' & -> & Heq);
      [|apply Forall_app; split; [apply Hclean|by repeat constructor]|done].
    destruct (IH _ _ Heq) as (-> & -> & Hin).
    rewrite !foldl_app, foldl_fit_events. split_and!; [done..|]. by right.
  - rewrite app_assoc in Heq.
    apply (split_after_clean is_child_timeout) in Heq as (e1' & -> & Heq);
      [|apply Forall_app; split; [apply Hclean|by repeat constructor]|done].
    destruct (IH _ _ Heq) as (-> & -> & Hin).
    rewrite !foldl_app, foldl_fit_events. split_and!; [done..|]. by right.
Qed.

(** X7: when, after all the pipelines of a level have been fitted, the
    timer's [child_out_of_time] is set, [fit_predict] processes no
    further level: the only calls it still makes are the blender's
    [fit_predict], on the predictions of all the pipelines of that
    configured level, and the reader's [upd_used_features]; it returns
    the blender's prediction. *)
Theorem child_timeout_ends_training td roles tf cv vd vf st lv r st' e1 e2 :
  _levels (self st) = Some lv →
  fit_predict td roles tf cv vd vf st = (r, st') →
  log st' = log st ++ e1 ++ EvChildOutOfTime true :: e2 →
  ∃ blended last_pipes remove,
    r = inr blended ∧
    e2 = [EvBlenderFit (PyList (current_fits e1).*2) (Some (current_fits e1).*1)
            blended last_pipes;
          EvUpdUsedFeatures remove] ∧
    (current_fits e1).*1 ∈ lv.
Proof.
  intros Hlv Hrun Hlog. rewrite fit_predict_eq in Hrun.
  destruct (read_training td tf roles st) as [d st2] eqn:Hread.
  assert (self st2 = self st ∧ log st2 = log st ++ [EvTimerStart; EvFitRead d])
    as [Hs2 Hl2] by (by inversion Hread).
  assert (Hshort : log st' = log st2 → False).
  { intros Heq. rewrite Heq, Hl2 in Hlog. apply app_inv_head in Hlog.
    revert Hlog. apply (clean_no_split is_child_timeout); by repeat constructor. }
  rewrite Hlv in Hrun.
  destruct (_ || _); [|exfalso; apply Hshort; by injection Hrun as _ <-].
  destruct (_ || _); [|exfalso; apply Hshort; by injection Hrun as _ <-].
  apply fit_predict_checked_run with (lv := lv) in Hrun; [|by rewrite Hs2].
  destruct Hrun as (pre & vds & it & evs & rl & kept & Hpre & Hit & Hruns & _ & Hcase).
  pose proof (prelude_clean is_child_timeout d pre vds cv it eq_refl
                (λ _, eq_refl) (λ _ _, eq_refl) (λ _ _ _ _, eq_refl) Hpre) as Hclean.
  destruct rl as [e|[lp pp]].
  - destruct Hcase as (_ & Hlog' & _). exfalso.
    rewrite Hlog', Hl2, <-!app_assoc in Hlog. apply app_inv_head in Hlog.
    rewrite !app_assoc, <-(app_assoc _ pre) in Hlog.
    apply (split_after_clean is_child_timeout) in Hlog as (e1' & _ & Hevs); [|done..].
    by destruct (levels_run_child_timeout _ _ _ _ _ _ _ _ _ _ Hruns _ _ Hevs)
      as (_ & ? & _).
  - destruct Hcase as (blended & last_pipes & -> & Hw & Hlog' & _).
    rewrite Hlog', Hl2, <-!app_assoc in Hlog. apply app_inv_head in Hlog.
    rewrite !app_assoc, <-(app_assoc _ pre), <-(app_assoc _ evs) in Hlog.
    apply (split_after_clean is_child_timeout) in Hlog as (e1' & -> & Hevs); [|done..].
    apply (split_before_clean is_child_timeout) in Hevs as (e2' & -> & Hevs);
      [|by repeat constructor|done].
    destruct (levels_run_child_timeout _ _ _ _ _ _ _ _ _ _ Hruns _ _ Hevs)
      as (-> & [= -> ->] & Hin).
    rewrite current_fits_prelude by done.
    eexists blended, last_pipes, _. split_and!; done.
Qed.

(** ** When the timer is asked *)





(** ** What the validation iterators are built from *)



(** ** The pipelines [predict] runs *)

Lemma predicted_pipes_app evs1 evs2 :
  predicted_pipes (evs1 ++ evs2) = predicted_pipes evs1 ++ predicted_pipes evs2.
Proof. apply omap_app. Qed.

Lemma predicted_pipes_events (d : Dataset) (preds : list (Pipe * Dataset)) :
  predicted_pipes (ValidIter:=ValidIter) (CvIter:=CvIter) (predict_events d preds)
  = preds.*1.
Proof.
  unfold predict_events. induction preds as [|[p pred] preds IH]; [done|].
  rewrite !fmap_cons. unfold predicted_pipes in *. simpl. by f_equal.
Qed.

Lemma predict_run_pipes N skip n lvls (d : Dataset) b evs r :
  predict_run N skip n lvls d b evs r →
  ∃ rest, concat lvls = predicted_pipes evs ++ rest ∧
          (∀ out, r = inr out → rest = []).
Proof.
  induction 1 as [n d b|n level lvls d b preds blended evs r Hp Hn Hrun IH
    |n level lvls d b preds e Hp Hn Hskip Hfrom
    |n level lvls d b preds c evs r Hp Hn Hskip Hfrom Hrun IH
    |n level lvls d b preds evs r Hp Hn Hskip Hrun IH];
    rewrite ?predicted_pipes_app, ?predicted_pipes_events; simpl; subst.
  - by exists [].
  - destruct IH as (rest & -> & Hrest). exists rest.
    by rewrite <-app_assoc.
  - exists (concat lvls). rewrite app_nil_r. done.
  - destruct IH as (rest & -> & Hrest). exists rest.
    by rewrite <-app_assoc.
  - destruct IH as (rest & -> & Hrest). exists rest.
    by rewrite <-app_assoc.
Qed.

(** X12: [predict] asks the retained pipelines to predict in the order
    of [self.levels], level by level, and no other pipeline; when it
    returns, every retained pipeline has predicted exactly once per
    place it holds in [self.levels]; when it raises, a leading part of
    them has. *)
Theorem predict_runs_retained_pipelines data fn st lv r st' evs :
  levels (self st) = Some lv →
  predict data fn st = (r, st') →
  log st' = log st ++ evs →
  predicted_pipes evs `prefix_of` concat lv ∧
  (∀ out, r = inr out → predicted_pipes evs = concat lv).
Proof.
  intros Hlv Hrun Hlog.
  apply predict_run_of in Hrun as (d & _ & _ & Hcase). rewrite Hlv in Hcase.
  destruct Hcase as (evs' & Hruns & Hlog').
  rewrite Hlog' in Hlog. apply app_inv_head in Hlog as <-.
  apply predict_run_pipes in Hruns as (rest & Hconcat & Hrest).
  rewrite predicted_pipes_app. simpl. split.
  - by exists rest.
  - intros out ->. rewrite Hconcat, (Hrest out eq_refl), app_nil_r. done.
Qed.



(** ** Initialising again *)


(** ** The pipelines [fit_predict] fits *)

Lemma fitted_pipes_app evs1 evs2 :
  fitted_pipes (evs1 ++ evs2) = fitted_pipes evs1 ++ fitted_pipes evs2.
Proof. apply omap_app. Qed.

Lemma fitted_pipes_fit_events it fits :
  fitted_pipes (CvIter:=CvIter) (fit_events it fits) = fits.*1.
Proof.
  unfold fit_events. induction fits as [|[p d] fits IH]; [done|].
  rewrite fmap_cons. unfold fitted_pipes in *. simpl. by f_equal.
Qed.

Lemma levels_run_fitted N skip n lvls it lp pp evs r kept :
  levels_run N skip n lvls it lp pp evs r kept →
  ∃ rest, concat lvls = fitted_pipes evs ++ rest ∧
    (∀ out, r = inr out → Forall (λ e, is_timeout e = false) evs →
            n + length lvls = N + 1 → rest = []).
Proof.
  induction 1 as [n it lp pp|n level lvls it lp pp fits p d rest Hlevel
    |n level lvls it lp pp fits out Hfits Hout
    |n level lvls it lp pp fits e Hfits Hn Hskip Hfrom
    |n level lvls it lp pp fits c evs r kept Hfits Hn Hskip Hfrom next it' Hrun IH
    |n level lvls it lp pp fits evs r kept Hfits Hn Hskip next it' Hrun IH];
    rewrite ?fitted_pipes_app, ?fitted_pipes_fit_events; simpl; subst.
  - by exists [].
  - exists (rest ++ concat lvls). split; [by rewrite <-!app_assoc|].
    intros res _ Hquiet _. exfalso.
    apply Forall_app in Hquiet as [_ Hquiet].
    apply Forall_cons in Hquiet as [_ Hquiet].
    by apply Forall_cons in Hquiet as [? _].
  - exists (concat lvls). split; [by rewrite app_nil_r|].
    intros res _ Hquiet Hlen.
    apply Forall_app in Hquiet as [_ Hquiet].
    apply Forall_cons in Hquiet as [Hq _].
    destruct Hout as [->| ->]; [done|].
    destruct lvls; [done|simpl in *; lia].
  - exists (concat lvls). split; [by rewrite app_nil_r|]. by intros res [=].
  - destruct IH as (rest & -> & Hrest). exists rest.
    split; [by rewrite <-app_assoc|].
    intros res -> Hquiet Hlen. apply (Hrest res eq_refl); [|simpl in *; lia].
    apply Forall_app in Hquiet as [_ Hquiet].
    by do 3 apply Forall_cons in Hquiet as [_ Hquiet].
  - destruct IH as (rest & -> & Hrest). exists rest.
    split; [by rewrite <-app_assoc|].
    intros res -> Hquiet Hlen. apply (Hrest res eq_refl); [|simpl in *; lia].
    apply Forall_app in Hquiet as [_ Hquiet].
    by do 2 apply Forall_cons in Hquiet as [_ Hquiet].
Qed.

(** X15: [fit_predict] fits the configured pipelines in the order of
    the configuration, level by level, and no other: the pipelines
    fitted are always a leading part of the configured ones, and when
    it returns and no timeout was signalled they are all of them. *)
Theorem fit_predict_fits_in_order td roles tf cv vd vf st lv r st' evs :
  _levels (self st) = Some lv →
  fit_predict td roles tf cv vd vf st = (r, st') →
  log st' = log st ++ evs →
  fitted_pipes evs `prefix_of` concat lv ∧
  (∀ blended, r = inr blended → Forall (λ e, is_timeout e = false) evs →
              fitted_pipes evs = concat lv).
Proof.
  intros Hlv Hrun Hlog. rewrite fit_predict_eq in Hrun.
  destruct (read_training td tf roles st) as [d st2] eqn:Hread.
  assert (self st2 = self st ∧ log st2 = log st ++ [EvTimerStart; EvFitRead d])
    as [Hs2 Hl2] by (by inversion Hread).
  assert (Hshort : log st' = log st2 → fitted_pipes evs = []).
  { intros Heq. rewrite Heq, Hl2 in Hlog. by apply app_inv_head in Hlog as <-. }
  rewrite Hlv in Hrun.
  destruct (_ || _);
    [|injection Hrun as <- <-; rewrite Hshort by done; split; [by eexists|done]].
  destruct (_ || _);
    [|injection Hrun as <- <-; rewrite Hshort by done; split; [by eexists|done]].
  apply fit_predict_checked_run with (lv := lv) in Hrun; [|by rewrite Hs2].
  destruct Hrun as (pre & vds & it & evs' & rl & kept & Hpre & _ & Hruns & _ & Hcase).
  apply levels_run_fitted in Hruns as (rest & Hconcat & Hrest).
  assert (Hpre' : fitted_pipes pre = []) by (by destruct Hpre as [->|[dv ->]]).
  destruct rl as [e|[lp pp]].
  - destruct Hcase as (-> & Hlog' & _).
    rewrite Hlog', Hl2, <-!app_assoc in Hlog. apply app_inv_head in Hlog as <-.
    rewrite !fitted_pipes_app, Hpre'. simpl. split; [by exists rest|done].
  - destruct Hcase as (blended & last_pipes & -> & _ & Hlog' & _).
    rewrite Hlog', Hl2, <-!app_assoc in Hlog. apply app_inv_head in Hlog as <-.
    rewrite !fitted_pipes_app, Hpre'. simpl. rewrite app_nil_r.
    split; [by exists rest|].
    intros b _ Hquiet. rewrite Hconcat, (Hrest (lp, pp) eq_refl), app_nil_r; [done| |lia].
    do 2 apply Forall_cons in Hquiet as [_ Hquiet].
    apply Forall_app in Hquiet as [_ Hquiet].
    apply Forall_cons in Hquiet as [_ Hquiet].
    by apply Forall_app in Hquiet as [? _].
Qed.

(** ** What the next level is trained on *)

Lemma iterators_app evs1 evs2 :
  iterators (evs1 ++ evs2) = iterators evs1 ++ iterators evs2.
Proof. apply omap_app. Qed.

Lemma iterators_fit_events it fits :
  iterators (CvIter:=CvIter) (fit_events it fits) = [].
Proof. unfold fit_events. induction fits as [|[p d] fits IH]; [done|]. exact IH. Qed.

Lemma last_iter_after it evs :
  last (it :: iterators evs) = Some (default it (last_iter evs)).
Proof. rewrite last_cons. unfold last_iter. by destruct (last _). Qed.

Lemma levels_run_next_input N skip n lvls it lp pp evs r kept :
  levels_run N skip n lvls it lp pp evs r kept →
  ∀ e1 t v c it' e2, evs = e1 ++ EvCreateIter t v c it' :: e2 →
    (if skip then
       ∃ conv,
         from_dataset (get_validation_data (default it (last_iter e1)))
           (concatenate (foldl fit_step [] e1).*2) = inr conv ∧
         t = concatenate [conv; get_validation_data (default it (last_iter e1))]
     else t = concatenate (foldl fit_step [] e1).*2) ∧
    it' = create_validation_iterator t None None None.
Proof.
  assert (Hclean : ∀ it fits,
    Forall (λ e, is_create_iter e = false) (fit_events (CvIter:=CvIter) it fits))
    by (intros; by apply fit_events_clean).
  induction 1 as [n it lp pp|n level lvls it lp pp fits p d rest Hlevel
    |n level lvls it lp pp fits out Hfits Hout
    |n level lvls it lp pp fits e Hfits Hn Hskip Hfrom
    |n level lvls it lp pp fits c0 evs r kept Hfits Hn Hskip Hfrom next it1 Hrun IH
    |n level lvls it lp pp fits evs r kept Hfits Hn Hskip next it1 Hrun IH];
    intros e1 t v c it' e2 Heq.
  - by destruct e1.
  - exfalso. revert Heq. apply (clean_no_split is_create_iter); [|done].
    apply Forall_app; split; [apply Hclean|by repeat constructor].
  - exfalso. revert Heq. apply (clean_no_split is_create_iter); [|done].
    apply Forall_app; split; [apply Hclean|by repeat constructor].
  - exfalso. revert Heq. apply (clean_no_split is_create_iter); [|done].
    apply Forall_app; split; [apply Hclean|by repeat constructor].
  - replace (fit_events it fits ++
       [EvChildOutOfTime false;
        EvFromDataset (get_validation_data it) (concatenate fits.*2) (inr c0);
        EvCreateIter next None None it1] ++ evs)
      with ((fit_events it fits ++
        [EvChildOutOfTime false;
         EvFromDataset (get_validation_data it) (concatenate fits.*2) (inr c0)]) ++
        EvCreateIter next None None it1 :: evs) in Heq
      by (by rewrite <-app_assoc).
    apply (split_after_clean is_create_iter) in Heq as (e1' & -> & Heq);
      [|apply Forall_app; split; [apply Hclean|by repeat constructor]|done].
    destruct e1' as [|a e1']; simplify_eq/=.
    + rewrite !app_nil_r. unfold last_iter. rewrite iterators_app, iterators_fit_events.
      rewrite foldl_app, foldl_fit_events. simpl. split; [|done]. by exists c0.
    + destruct (IH _ _ _ _ _ _ eq_refl) as [Ht Hit]. split; [|done].
      destruct Ht as (conv & Hconv & Ht).
      unfold last_iter at 1 2. rewrite !iterators_app, iterators_fit_events.
      simpl. rewrite last_iter_after, !foldl_app, foldl_fit_events. simpl.
      by exists conv.
  - replace (fit_events it fits ++
       [EvChildOutOfTime false; EvCreateIter next None None it1] ++ evs)
      with ((fit_events it fits ++ [EvChildOutOfTime false]) ++
        EvCreateIter next None None it1 :: evs) in Heq
      by (by rewrite <-app_assoc).
    apply (split_after_clean is_create_iter) in Heq as (e1' & -> & Heq);
      [|apply Forall_app; split; [apply Hclean|by repeat constructor]|done].
    destruct e1' as [|a e1']; simplify_eq/=.
    + rewrite !app_nil_r, foldl_app, foldl_fit_events. done.
    + destruct (IH _ _ _ _ _ _ eq_refl) as [Ht Hit]. split; [|done].
      rewrite !foldl_app, foldl_fit_events. done.
Qed.

(** X16: the dataset a level after the first is trained on.  Without
    skip connections it is the concatenation of the predictions of the
    pipelines of the level before, in pipeline order.  With skip
    connections it is the concatenation of those predictions, converted
    to the type of the validation data of the iterator of the level
    before, followed by that validation data: predictions first, then
    what the level before was itself trained on, so the original
    features and the predictions of all earlier levels are carried
    along. *)
Theorem next_level_input td roles tf cv vd vf st r st' e1 t v c it' e2 it0 :
  fit_predict td roles tf cv vd vf st = (r, st') →
  log st' = log st ++ e1 ++ EvCreateIter t v c it' :: e2 →
  last_iter e1 = Some it0 →
  (if skip_conn (self st) then
     ∃ conv,
       from_dataset (get_validation_data it0)
         (concatenate (current_fits e1).*2) = inr conv ∧
       t = concatenate [conv; get_validation_data it0]
   else t = concatenate (current_fits e1).*2) ∧
  it' = create_validation_iterator t None None None.
Proof.
  intros Hrun Hlog Hlast. rewrite fit_predict_eq in Hrun.
  destruct (read_training td tf roles st) as [d st2] eqn:Hread.
  assert (self st2 = self st ∧ log st2 = log st ++ [EvTimerStart; EvFitRead d])
    as [Hs2 Hl2] by (by inversion Hread).
  assert (Hshort : log st' = log st2 → False).
  { intros Heq. rewrite Heq, Hl2 in Hlog. apply app_inv_head in Hlog.
    revert Hlog. apply (clean_no_split is_create_iter); by repeat constructor. }
  destruct (_levels (self st)) as [lv|] eqn:Hlv;
    [|exfalso; apply Hshort; by injection Hrun as _ <-].
  destruct (_ || _); [|exfalso; apply Hshort; by injection Hrun as _ <-].
  destruct (_ || _); [|exfalso; apply Hshort; by injection Hrun as _ <-].
  apply fit_predict_checked_run with (lv := lv) in Hrun; [|by rewrite Hs2].
  destruct Hrun as (pre & vds & it & evs & rl & kept & Hpre & _ & Hruns & _ & Hcase).
  rewrite Hs2 in Hruns.
  assert (Hclean : Forall (λ e, is_create_iter e = false)
            ([EvTimerStart; EvFitRead d] ++ pre))
    by (destruct Hpre as [->|[dv ->]]; by repeat constructor).
  assert (Hnone : iterators ([EvTimerStart; EvFitRead d] ++ pre) = [])
    by (by destruct Hpre as [->|[dv ->]]).
  assert (Hfits : ∀ l, current_fits
            (([EvTimerStart; EvFitRead d] ++ pre) ++ EvCreateIter d vds cv it :: l)
            = foldl fit_step [] l).
  { intros l. rewrite current_fits_app. simpl. done. }
  assert (Hmain : ∃ e1' e2', e1 = ([EvTimerStart; EvFitRead d] ++ pre) ++
                      EvCreateIter d vds cv it :: e1' ∧
                    evs = e1' ++ EvCreateIter t v c it' :: e2').
  { destruct rl as [e|[lp pp]].
    - destruct Hcase as (_ & Hlog' & _).
      rewrite Hlog', Hl2, <-!app_assoc in Hlog. apply app_inv_head in Hlog.
      rewrite (app_assoc _ pre) in Hlog.
      apply (split_after_clean is_create_iter) in Hlog as (e1' & -> & Hevs); [|done..].
      destruct e1' as [|a e1'].
      + exfalso. rewrite app_nil_r in Hlast.
        destruct Hpre as [->|[dv ->]]; discriminate Hlast.
      + simpl in Hevs. injection Hevs as <- Hevs. by exists e1', e2.
    - destruct Hcase as (blended & last_pipes & _ & _ & Hlog' & _).
      rewrite Hlog', Hl2, <-!app_assoc in Hlog. apply app_inv_head in Hlog.
      rewrite (app_assoc _ pre) in Hlog.
      apply (split_after_clean is_create_iter) in Hlog as (e1' & -> & Hevs); [|done..].
      destruct e1' as [|a e1'].
      + exfalso. rewrite app_nil_r in Hlast.
        destruct Hpre as [->|[dv ->]]; discriminate Hlast.
      + simpl in Hevs. injection Hevs as <- Hevs.
        apply (split_before_clean is_create_iter) in Hevs as (e2' & -> & Hevs);
          [|by repeat constructor|done].
        by exists e1', e2'. }
  destruct Hmain as (e1' & e2' & -> & ->).
  rewrite Hfits.
  unfold last_iter in Hlast. rewrite iterators_app, Hnone in Hlast. simpl in Hlast.
  rewrite last_iter_after in Hlast. injection Hlast as <-.
  by apply (levels_run_next_input _ _ _ _ _ _ _ _ _ _ Hruns e1' t v c it' e2').
Qed.

End MoreProperties.

(** * The further properties on concrete runs *)

Section MoreExamples.

Import Toy ToyMore.

Lemma model_stats_keys_witness :
  levels (self ok_run.2) = Some two_levels ∧
  ∃ stats, collect_model_stats ok_run.2 = (inr stats, ok_run.2) ∧
    dom stats =
      list_to_set (algo_name <$> retained_algos (world ok_run.2) two_levels).
Proof.
  split; [vm_compute; reflexivity|].
  apply (model_stats_keys ok_run.2 two_levels). vm_compute; reflexivity.
Defined.

(** The boosting algorithm of pipeline 1 is visited twice. *)
Lemma model_stats_last_wins_witness :
  levels (self st_twice) = Some [[1; 2]; [1]] ∧
  ∃ stats, collect_model_stats st_twice = (inr stats, st_twice) ∧
    stats !! "gbm_1" =
      (λ a, length (algo_models a)) <$>
        last (filter (λ a, algo_name a = "gbm_1")
                (retained_algos (world st_twice) [[1; 2]; [1]])).
Proof.
  split; [vm_compute; reflexivity|].
  apply (model_stats_last_wins st_twice [[1; 2]; [1]] "gbm_1").
  vm_compute; reflexivity.
Defined.

Lemma model_stats_distinct_names_witness :
  levels (self ok_run.2) = Some two_levels ∧
  NoDup (algo_name <$> retained_algos (world ok_run.2) two_levels) ∧
  ∃ stats, collect_model_stats ok_run.2 = (inr stats, ok_run.2) ∧
    size stats = length (retained_algos (world ok_run.2) two_levels) ∧
    ∀ a, a ∈ retained_algos (world ok_run.2) two_levels →
         stats !! algo_name a = Some (length (algo_models a)).
Proof.
  assert (Hnd : NoDup (algo_name <$> retained_algos (world ok_run.2) two_levels))
    by (apply (bool_decide_unpack _); vm_compute; exact I).
  split; [vm_compute; reflexivity|]. split; [exact Hnd|].
  apply (model_stats_distinct_names ok_run.2 two_levels);
    [vm_compute; reflexivity|exact Hnd].
Defined.

Lemma bookkeeping_needs_fit_witness :
  levels (self (fresh 10 false)) = None ∧
  _initialize two_levels false (fresh 10 false) = (inr tt, st_ok) ∧
  collect_used_feats st_ok = (inl (AttributeError (msg_attr "levels")), st_ok) ∧
  collect_model_stats st_ok = (inl (AttributeError (msg_attr "levels")), st_ok).
Proof.
  split; [vm_compute; reflexivity|]. split; [vm_compute; reflexivity|].
  apply (bookkeeping_needs_fit two_levels false (fresh 10 false) st_ok);
    vm_compute; reflexivity.
Defined.

Lemma collect_used_feats_no_duplicates_witness :
  levels (self ok_run.2) = Some two_levels ∧
  ∃ feats, collect_used_feats ok_run.2 = (inr feats, ok_run.2) ∧
    NoDup feats ∧
    ∀ f, f ∈ feats ↔
         ∃ lvl p, lvl ∈ two_levels ∧ p ∈ lvl ∧
                  f ∈ pipe_used_features p (world ok_run.2).
Proof.
  split; [vm_compute; reflexivity|].
  apply (collect_used_feats_no_duplicates ok_run.2 two_levels).
  vm_compute; reflexivity.
Defined.


Lemma child_timeout_ends_training_witness :
  _levels (self st_child) = Some two_levels ∧
  fit_predict data tt None None None None st_child = (child_run.1, child_run.2) ∧
  log child_run.2 = log st_child ++ take 7 (calls st_child child_run.2) ++
    EvChildOutOfTime true :: drop 8 (calls st_child child_run.2) ∧
  ∃ blended last_pipes remove,
    child_run.1 = inr blended ∧
    drop 8 (calls st_child child_run.2) =
      [EvBlenderFit (PyList (current_fits (take 7 (calls st_child child_run.2))).*2)
         (Some (current_fits (take 7 (calls st_child child_run.2))).*1)
         blended last_pipes;
       EvUpdUsedFeatures remove] ∧
    (current_fits (take 7 (calls st_child child_run.2))).*1 ∈ two_levels.
Proof.
  split; [vm_compute; reflexivity|]. split; [vm_compute; reflexivity|].
  split; [vm_compute; reflexivity|].
  apply (child_timeout_ends_training data tt None None None None st_child two_levels
           child_run.1 child_run.2);
    vm_compute; reflexivity.
Defined.


Lemma failed_fit_keeps_configuration_witness :
  fit_predict (sparse ["a"; "b"; "c"]) tt None None None None st_skip =
    (inl (TypeError msg_skip_conn), sparse_run.2) ∧
  _levels (self sparse_run.2) = _levels (self st_skip) ∧
  skip_conn (self sparse_run.2) = skip_conn (self st_skip).
Proof.
  split; [vm_compute; reflexivity|].
  apply (failed_fit_keeps_configuration (sparse ["a"; "b"; "c"]) tt None None None None
           st_skip (TypeError msg_skip_conn) sparse_run.2).
  vm_compute; reflexivity.
Defined.



Lemma predict_runs_retained_pipelines_witness :
  levels (self ok_run.2) = Some two_levels ∧
  predict data None ok_run.2 = (ok_predict.1, ok_predict.2) ∧
  log ok_predict.2 = log ok_run.2 ++ calls ok_run.2 ok_predict.2 ∧
  predicted_pipes (calls ok_run.2 ok_predict.2) `prefix_of` concat two_levels ∧
  (∀ out, ok_predict.1 = inr out →
          predicted_pipes (calls ok_run.2 ok_predict.2) = concat two_levels).
Proof.
  split; [vm_compute; reflexivity|]. split; [vm_compute; reflexivity|].
  split; [vm_compute; reflexivity|].
  apply (predict_runs_retained_pipelines data None ok_run.2 two_levels
           ok_predict.1 ok_predict.2); vm_compute; reflexivity.
Defined.



Lemma fit_predict_fits_in_order_witness :
  _levels (self st_ok) = Some two_levels ∧
  fit_predict data tt None None None None st_ok = (ok_run.1, ok_run.2) ∧
  log ok_run.2 = log st_ok ++ calls st_ok ok_run.2 ∧
  fitted_pipes (calls st_ok ok_run.2) `prefix_of` concat two_levels ∧
  (∀ blended, ok_run.1 = inr blended →
     Forall (λ e, is_timeout e = false) (calls st_ok ok_run.2) →
     fitted_pipes (calls st_ok ok_run.2) = concat two_levels).
Proof.
  split; [vm_compute; reflexivity|]. split; [vm_compute; reflexivity|].
  split; [vm_compute; reflexivity|].
  apply (fit_predict_fits_in_order data tt None None None None st_ok two_levels
           ok_run.1 ok_run.2); vm_compute; reflexivity.
Defined.

(** The second level under skip connections: its input is the two
    predictions followed by the columns of the training table. *)
Lemma next_level_input_witness :
  fit_predict data tt None None None None st_skip = (skip_run.1, skip_run.2) ∧
  log skip_run.2 = log st_skip ++ take 9 (calls st_skip skip_run.2) ++
    EvCreateIter (mkDs 0 None ["pred_1"; "pred_2"; "a"; "b"; "c"]) None None
      (mkDs 0 None ["pred_1"; "pred_2"; "a"; "b"; "c"], None)
    :: drop 10 (calls st_skip skip_run.2) ∧
  last_iter (take 9 (calls st_skip skip_run.2)) = Some (data, None) ∧
  (if skip_conn (self st_skip) then
     ∃ conv,
       from_dataset (get_validation_data (data, None))
         (concatenate
            (current_fits (take 9 (calls st_skip skip_run.2))).*2) = inr conv ∧
       mkDs 0 None ["pred_1"; "pred_2"; "a"; "b"; "c"] =
         concatenate
           [conv; get_validation_data (data, None)]
   else mkDs 0 None ["pred_1"; "pred_2"; "a"; "b"; "c"] =
          concatenate
            (current_fits (take 9 (calls st_skip skip_run.2))).*2) ∧
  (mkDs 0 None ["pred_1"; "pred_2"; "a"; "b"; "c"], None) =
    create_validation_iterator
      (mkDs 0 None ["pred_1"; "pred_2"; "a"; "b"; "c"]) None None None.
Proof.
  split; [vm_compute; reflexivity|]. split; [vm_compute; reflexivity|].
  split; [vm_compute; reflexivity|].
  apply (next_level_input data tt None None None None st_skip skip_run.1 skip_run.2
           (take 9 (calls st_skip skip_run.2))
           (mkDs 0 None ["pred_1"; "pred_2"; "a"; "b"; "c"]) None None
           (mkDs 0 None ["pred_1"; "pred_2"; "a"; "b"; "c"], None)
           (drop 10 (calls st_skip skip_run.2)) (data, None));
    vm_compute; reflexivity.
Defined.

End MoreExamples.
